(** * read_big_sql: the SQL dump processor, embedded and verified

    A shallow embedding of [src/core/sql_dump_processor.py],
    [src/core/parse.py] and [src/core/extract.py].

    Conventions of the embedding.
    - A Python [str] is a Rocq [string]; a character is an [ascii].  The
      character classes ([str.upper], [str.strip], the [re] classes [\s] and
      [\w]) are the ASCII ones: the model is exact on ASCII text.
    - [for line in file] yields the physical lines with their line terminator;
      the loop of a mode takes the list of those lines.
    - A file system is a [gmap] from paths to contents, the database server a
      state with its operations; the functions of the libraries ([gzip],
      [csv], [json], the connector) are variables of the sections that use
      them.
    - A Python [dict] is a [gmap], a Python [set] a [gset]; an exception is an
      explicit error result. *)

From Stdlib Require Import Ascii String ZArith Lia List Bool DecimalString DecimalNat.
From stdpp Require Import base gmap strings list.

#[local] Arguments String.append !_ _ / : simpl nomatch.
#[local] Set Warnings "-clear-no-such-hyp".


(** ** Characters and strings, as Python's [str] methods *)

Module Py.

(** [c.isspace()] on ASCII: TAB..CR, FS..US and the blank. *)
Definition isspace (c : ascii) : bool :=
  let n := nat_of_ascii c in
  ((9 <=? n)%nat && (n <=? 13)%nat) || ((28 <=? n)%nat && (n <=? 32)%nat).

Definition is_lower (c : ascii) : bool :=
  let n := nat_of_ascii c in (97 <=? n)%nat && (n <=? 122)%nat.

Definition is_upper (c : ascii) : bool :=
  let n := nat_of_ascii c in (65 <=? n)%nat && (n <=? 90)%nat.

Definition is_digit (c : ascii) : bool :=
  let n := nat_of_ascii c in (48 <=? n)%nat && (n <=? 57)%nat.

Definition upper_char (c : ascii) : ascii :=
  if is_lower c then ascii_of_nat (nat_of_ascii c - 32) else c.

Definition lower_char (c : ascii) : ascii :=
  if is_upper c then ascii_of_nat (nat_of_ascii c + 32) else c.

(** [s.upper()] *)
Fixpoint upper (s : string) : string :=
  match s with
  | EmptyString => EmptyString
  | String c s' => String (upper_char c) (upper s')
  end.

(** [s.lstrip(chars)], for the characters that satisfy [p] *)
Fixpoint lstrip_by (p : ascii -> bool) (s : string) : string :=
  match s with
  | EmptyString => EmptyString
  | String c s' => if p c then lstrip_by p s' else s
  end.

(** [s.rstrip(chars)], for the characters that satisfy [p] *)
Fixpoint rstrip_by (p : ascii -> bool) (s : string) : string :=
  match s with
  | EmptyString => EmptyString
  | String c s' =>
      match rstrip_by p s' with
      | EmptyString => if p c then EmptyString else String c EmptyString
      | r => String c r
      end
  end.

Definition strip_by (p : ascii -> bool) (s : string) : string :=
  lstrip_by p (rstrip_by p s).

(** [s.lstrip()] and [s.rstrip()] *)
Definition lstrip : string -> string := lstrip_by isspace.
Definition rstrip : string -> string := rstrip_by isspace.

(** [s.strip()] *)
Definition strip (s : string) : string := lstrip (rstrip s).

(** [s.startswith(p)] *)
Definition startswith (s p : string) : bool := String.prefix p s.

(** [s.endswith(p)] *)
Definition endswith (s p : string) : bool :=
  (String.length p <=? String.length s)%nat &&
  String.eqb (String.substring (String.length s - String.length p) (String.length p) s) p.

(** [sub in s] *)
Fixpoint contains (sub s : string) : bool :=
  String.prefix sub s ||
  match s with
  | EmptyString => false
  | String _ s' => contains sub s'
  end.

(** [s.split(sep)] for a one-character separator *)
Fixpoint split_on (sep : ascii) (s : string) : list string :=
  match s with
  | EmptyString => [EmptyString]
  | String c s' =>
      if Ascii.eqb c sep then EmptyString :: split_on sep s'
      else match split_on sep s' with
           | [] => [String c EmptyString]
           | w :: ws => String c w :: ws
           end
  end.

(** [''.join(l)] *)
Definition join (l : list string) : string := fold_right String.append "" l.

(** The truth value of a string: non-empty. *)
Definition truthy (s : string) : bool :=
  match s with EmptyString => false | _ => true end.

End Py.

(** ** The Scanner: [SQLDumpProcessor._process_line] *)

(** The three loose flags the source passes from one line to the next.
    [in_string] is [False] or the opening quote character. *)
Record ScanState := mkScan {
  in_multiline_comment : bool;
  in_string : option ascii;
  escape_next : bool
}.

Definition initial_scan : ScanState := mkScan false None false.

(** The double quote character. *)
Definition dquote : ascii := ascii_of_nat 34.

Definition is_quote (c : ascii) : bool :=
  Ascii.eqb c "'" || Ascii.eqb c dquote || Ascii.eqb c "`".

(** Two characters open the text [s]. *)
Definition starts2 (c d : ascii) (s : string) : bool :=
  match s with
  | String x (String y _) => Ascii.eqb x c && Ascii.eqb y d
  | _ => false
  end.

(** [content_buffer.append(char)] on the way back from the rest of the scan. *)
Definition emit (c : ascii) (r : string * ScanState) : string * ScanState :=
  (String c (fst r), snd r).

(** The [while i < len(line)] loop; [line] is the suffix [line[i:]], so
    [line[i + 1]] is the head of [rest] and [i += 2] continues on the tail of
    [rest]. *)
Fixpoint scan (in_comment : bool) (in_str : option ascii) (esc : bool)
    (line : string) : string * ScanState :=
  match line with
  | EmptyString => (EmptyString, mkScan in_comment in_str esc)
  | String char rest =>
      if esc then emit char (scan in_comment in_str false rest)
      else match in_str with
      | Some q =>
          if Ascii.eqb char "\" then emit char (scan in_comment (Some q) true rest)
          else if Ascii.eqb char q then emit char (scan in_comment None false rest)
          else emit char (scan in_comment (Some q) false rest)
      | None =>
          if in_comment then
            match rest with
            | String next rest' =>
                if Ascii.eqb char "*" && Ascii.eqb next "/"
                then scan false None false rest'
                else scan true None false rest
            | EmptyString => scan true None false rest
            end
          else
            match rest with
            | String next rest' =>
                if Ascii.eqb char "-" && Ascii.eqb next "-"
                then (EmptyString, mkScan false None false)
                else if Ascii.eqb char "/" && Ascii.eqb next "*"
                then scan true None false rest'
                else if is_quote char
                then emit char (scan false (Some char) false rest)
                else emit char (scan false None false rest)
            | EmptyString =>
                if is_quote char
                then emit char (scan false (Some char) false rest)
                else emit char (scan false None false rest)
            end
      end
  end.

(** [_process_line(line, in_comment, in_string, escape_next)]: the pair of
    [result['content']] and the three returned flags. *)
Definition process_line (line : string) (st : ScanState) : string * ScanState :=
  scan (in_multiline_comment st) (in_string st) (escape_next st) (Py.rstrip line).

Definition nl : string := String (ascii_of_nat 10) EmptyString.
Definition cr : string := String (ascii_of_nat 13) EmptyString.


(** ** The Statement Assembler and the Restorer: [_restore_to_db] *)

(** [current_statement.strip() and not current_statement.strip().startswith('--')] *)
Definition executable (current_statement : string) : bool :=
  Py.truthy (Py.strip current_statement) &&
  negb (Py.startswith (Py.strip current_statement) "--").

(** The locals of the loop that survive an iteration. *)
Record Assembler := mkAsm {
  current_statement : string;
  scan_state : ScanState
}.

Definition initial_assembler : Assembler := mkAsm "" initial_scan.

Definition not_in_string (st : ScanState) : bool :=
  match in_string st with Some _ => false | None => true end.

(** One iteration of [for line in file], up to the call of [_execute_sql]:
    the statement handed to the engine, if any, and the locals afterwards. *)
Definition assemble_line (a : Assembler) (line : string) : option string * Assembler :=
  let processed := process_line line (scan_state a) in
  let current := current_statement a +:+ fst processed +:+ " " in
  let st := snd processed in
  if Py.contains ";" (fst processed) && not_in_string st then
    (if executable current then Some (Py.strip current) else None, mkAsm "" st)
  else (None, mkAsm current st).

Inductive outcome := Completed | Raised.

Section Restore.
(** The engine behind [_execute_sql]: a state and an operation that runs
    one statement and either returns ([true]) or raises ([false]). *)
Context {Engine : Type}.
Variable execute_sql : Engine -> string -> Engine * bool.
Variable skip_errors : bool.

(** What a run has done so far: the engine, the [statements_executed]
    counter, and the statements passed to [_execute_sql], in call order. *)
Record Run := mkRun {
  engine : Engine;
  statements_executed : nat;
  calls : list string
}.

(** The [try ... except] around [_execute_sql] inside the loop. *)
Definition execute_guarded (stmt : string) (r : Run) : outcome * Run :=
  let '(e, ok) := execute_sql (engine r) stmt in
  if ok then (Completed, mkRun e (S (statements_executed r)) (calls r ++ [stmt]))
  else (if skip_errors then Completed else Raised,
        mkRun e (statements_executed r) (calls r ++ [stmt])).

(** The call after the loop, outside any [try]. *)
Definition execute_unguarded (stmt : string) (r : Run) : outcome * Run :=
  let '(e, ok) := execute_sql (engine r) stmt in
  if ok then (Completed, mkRun e (S (statements_executed r)) (calls r ++ [stmt]))
  else (Raised, mkRun e (statements_executed r) (calls r ++ [stmt])).

(** The loop over the lines of the file. *)
Fixpoint restore_lines (lines : list string) (a : Assembler) (r : Run)
    : outcome * Assembler * Run :=
  match lines with
  | [] => (Completed, a, r)
  | line :: lines' =>
      let '(stmt, a') := assemble_line a line in
      match stmt with
      | Some s =>
          match execute_guarded s r with
          | (Completed, r') => restore_lines lines' a' r'
          | (Raised, r') => (Raised, a', r')
          end
      | None => restore_lines lines' a' r
      end
  end.

(** The loop of [_restore_to_db] and the call after it, from the first
    line read to the final log line. *)
Definition restore_to_db (lines : list string) (e : Engine) : outcome * Run :=
  match restore_lines lines initial_assembler (mkRun e 0 []) with
  | (Completed, a, r) =>
      if executable (current_statement a)
      then execute_unguarded (Py.strip (current_statement a)) r
      else (Completed, r)
  | (Raised, _, r) => (Raised, r)
  end.

(** The guarded execution of a sequence of statements, one after the other,
    until one raises. *)
Fixpoint execute_each (stmts : list string) (r : Run) : outcome * Run :=
  match stmts with
  | [] => (Completed, r)
  | s :: stmts' =>
      match execute_guarded s r with
      | (Completed, r') => execute_each stmts' r'
      | (Raised, r') => (Raised, r')
      end
  end.

End Restore.

Arguments Run : clear implicits.
Arguments mkRun {Engine}.

(** ** Batches: [_execute_batch] *)

(** How a call into the database connector ends: it returns, it raises
    [mysql.connector.Error] (imported as [Error]), or it raises another
    exception. *)
Inductive ending := Returns | RaisesError | RaisesOther.

Section Batch.
Context {Engine : Type}.
(** [self._get_db_connection()] followed by [connection.cursor()], before
    the [try]: [true] when both return. *)
Variable get_cursor : Engine -> Engine * bool.
(** [cursor.execute(statement)] *)
Variable cursor_execute : Engine -> string -> Engine * ending.
Variable skip_errors : bool.

(** The [for] loop inside the [try]; the counter of the run records the
    calls that returned. *)
Fixpoint execute_batch_loop (statements : list string) (r : Run Engine)
    : ending * Run Engine :=
  match statements with
  | [] => (Returns, r)
  | stmt :: rest =>
      match cursor_execute (engine r) stmt with
      | (e, Returns) =>
          execute_batch_loop rest (mkRun e (S (statements_executed r)) (calls r ++ [stmt]))
      | (e, raised) => (raised, mkRun e (statements_executed r) (calls r ++ [stmt]))
      end
  end.

(** [_execute_batch]: the cursor is obtained outside the [try]; the one
    [try] around the whole loop catches [Error] only, and re-raises it
    without skip-errors; the [finally] closes the cursor. *)
Definition execute_batch (statements : list string) (r : Run Engine)
    : outcome * Run Engine :=
  match get_cursor (engine r) with
  | (e, true) =>
      match execute_batch_loop statements
              (mkRun e (statements_executed r) (calls r)) with
      | (Returns, r') => (Completed, r')
      | (RaisesError, r') => (if skip_errors then Completed else Raised, r')
      | (RaisesOther, r') => (Raised, r')
      end
  | (e, false) => (Raised, mkRun e (statements_executed r) (calls r))
  end.
End Batch.

(** An engine on which every statement succeeds. *)
Definition accept_all (e : unit) (stmt : string) : unit * bool := (tt, true).

(** The statements of a dump, as the Assembler delimits them: what a restore
    executes when nothing fails. *)
Definition statements_of (lines : list string) : list string :=
  calls (snd (restore_to_db accept_all false lines tt)).

(** The statements the loop hands to the engine, in order, and the locals
    when the file is exhausted: the loop of [_restore_to_db] without the
    engine. *)
Fixpoint loop_statements (lines : list string) (a : Assembler)
    : list string * Assembler :=
  match lines with
  | [] => ([], a)
  | line :: lines' =>
      let '(stmt, a') := assemble_line a line in
      let '(stmts, a'') := loop_statements lines' a' in
      (match stmt with Some s => s :: stmts | None => stmts end, a'')
  end.

(** The statement executed after the loop, if any. *)
Definition final_statement (a : Assembler) : list string :=
  if executable (current_statement a) then [Py.strip (current_statement a)] else [].


(** ** Regular expressions, as Python's [re] matches them

    A backtracking matcher with Python's priorities: alternatives left to
    right, greedy operators longest first, lazy operators shortest first, the
    leftmost match wins.  Only the operators the source's patterns use. *)

Module Re.

Inductive regex :=
| Empty                         (* the empty pattern *)
| Lit (c : ascii)               (* a literal character *)
| Class (p : ascii -> bool)     (* a character class; [.] under DOTALL *)
| Seq (r1 r2 : regex)
| Alt (r1 r2 : regex)           (* r1|r2 *)
| Opt (r : regex)               (* r?  *)
| Star (r : regex)              (* r*  *)
| LazyStar (r : regex)          (* r*? *)
| Group (n : nat) (r : regex)   (* the n-th capturing group *)
| Ahead (r : regex)             (* (?=r) *)
| Eol.                          (* $ without MULTILINE *)

Definition Plus (r : regex) : regex := Seq r (Star r).

(** The pattern of a literal text (also the effect of [re.escape]). *)
Fixpoint text (s : string) : regex :=
  match s with
  | EmptyString => Empty
  | String c s' => Seq (Lit c) (text s')
  end.

(** The concatenation of the items of a pattern. *)
Definition seq (rs : list regex) : regex := fold_right Seq Empty rs.

(** Captured groups, most recent first. *)
Definition captures := list (nat * string).

Fixpoint group (n : nat) (caps : captures) : option string :=
  match caps with
  | [] => None
  | (i, s) :: caps' => if Nat.eqb i n then Some s else group n caps'
  end.

(** The text between the suffix [s] and its suffix [s']. *)
Definition consumed (s s' : string) : string :=
  String.substring 0 (String.length s - String.length s') s.

Definition same_char (ignorecase : bool) (c d : ascii) : bool :=
  if ignorecase then Ascii.eqb (Py.lower_char c) (Py.lower_char d) else Ascii.eqb c d.

(** [run ic r s caps k]: match [r] at the start of [s], then continue with
    [k] on what is left; [None] makes the matcher backtrack. *)
Fixpoint run (ic : bool) (r : regex) (s : string) (caps : captures)
    (k : string -> captures -> option (string * captures)) {struct r}
    : option (string * captures) :=
  match r with
  | Empty => k s caps
  | Lit c =>
      match s with
      | String d s' => if same_char ic c d then k s' caps else None
      | EmptyString => None
      end
  | Class p =>
      match s with
      | String d s' => if p d then k s' caps else None
      | EmptyString => None
      end
  | Seq r1 r2 => run ic r1 s caps (fun s' caps' => run ic r2 s' caps' k)
  | Alt r1 r2 =>
      match run ic r1 s caps k with
      | Some res => Some res
      | None => run ic r2 s caps k
      end
  | Opt r1 =>
      match run ic r1 s caps k with
      | Some res => Some res
      | None => k s caps
      end
  | Star r1 =>
      (fix star (fuel : nat) (s : string) (caps : captures) :=
         match fuel with
         | O => k s caps
         | S fuel' =>
             match run ic r1 s caps (fun s' caps' =>
                     if (String.length s' <? String.length s)%nat
                     then star fuel' s' caps' else None) with
             | Some res => Some res
             | None => k s caps
             end
         end) (String.length s) s caps
  | LazyStar r1 =>
      (fix star (fuel : nat) (s : string) (caps : captures) :=
         match k s caps with
         | Some res => Some res
         | None =>
             match fuel with
             | O => None
             | S fuel' =>
                 run ic r1 s caps (fun s' caps' =>
                   if (String.length s' <? String.length s)%nat
                   then star fuel' s' caps' else None)
             end
         end) (String.length s) s caps
  | Group n r1 =>
      run ic r1 s caps (fun s' caps' => k s' ((n, consumed s s') :: caps'))
  | Ahead r1 =>
      match run ic r1 s caps (fun s' caps' => Some (s', caps')) with
      | Some (_, caps') => k s caps'
      | None => None
      end
  | Eol =>
      match s with
      | EmptyString => k s caps
      | String c EmptyString => if Ascii.eqb c (ascii_of_nat 10) then k s caps else None
      | _ => None
      end
  end.

(** [pattern.match]: a match at the start of [s]; what is left, and the groups. *)
Definition match_here (ic : bool) (r : regex) (s : string) : option (string * captures) :=
  run ic r s [] (fun s' caps => Some (s', caps)).

(** [re.search]: the leftmost match. *)
Fixpoint search (ic : bool) (r : regex) (s : string) : option (string * captures) :=
  match match_here ic r s with
  | Some res => Some res
  | None =>
      match s with
      | EmptyString => None
      | String _ s' => search ic r s'
      end
  end.

(** [pattern.findall]: the groups of the successive non-overlapping matches,
    left to right; after a match the search resumes where it ended (one
    character further when the match was empty). *)
Fixpoint findall_from (fuel : nat) (ic : bool) (r : regex) (s : string) : list captures :=
  match fuel with
  | O => []
  | S fuel' =>
      match match_here ic r s with
      | Some (s', caps) =>
          if (String.length s' <? String.length s)%nat
          then caps :: findall_from fuel' ic r s'
          else caps :: match s with
                       | EmptyString => []
                       | String _ s1 => findall_from fuel' ic r s1
                       end
      | None =>
          match s with
          | EmptyString => []
          | String _ s1 => findall_from fuel' ic r s1
          end
      end
  end.

Definition findall (ic : bool) (r : regex) (s : string) : list captures :=
  findall_from (S (String.length s)) ic r s.

(** [\w], [\s] and [.] *)
Definition word (c : ascii) : bool :=
  Py.is_lower c || Py.is_upper c || Py.is_digit c || Ascii.eqb c "_".
Definition space : ascii -> bool := Py.isspace.
Definition any (c : ascii) : bool := true.

End Re.

(** ** The Classifier's table names: [core.extract.extract_table_name] *)

Definition quote2 (c : ascii) : bool := Ascii.eqb c "`" || Ascii.eqb c dquote.

(** The three patterns, in the order of the source's list; [Q] stands for the
    class of the backtick and the double quote. *)
Definition patterns : list Re.regex :=
  [ (* CREATE TABLE (?:IF NOT EXISTS )?Q?(\w+)Q? *)
    Re.seq [Re.text "CREATE TABLE "; Re.Opt (Re.text "IF NOT EXISTS ");
            Re.Opt (Re.Class quote2); Re.Group 1 (Re.Plus (Re.Class Re.word));
            Re.Opt (Re.Class quote2)];
    (* INSERT INTO Q?(\w+)Q? *)
    Re.seq [Re.text "INSERT INTO ";
            Re.Opt (Re.Class quote2); Re.Group 1 (Re.Plus (Re.Class Re.word));
            Re.Opt (Re.Class quote2)];
    (* INSERT IGNORE INTO Q?(\w+)Q? *)
    Re.seq [Re.text "INSERT IGNORE INTO ";
            Re.Opt (Re.Class quote2); Re.Group 1 (Re.Plus (Re.Class Re.word));
            Re.Opt (Re.Class quote2)] ].

(** [extract_table_name(line)]: group 1 of the first pattern that matches
    somewhere in the line, ignoring case. *)
Fixpoint first_match (ps : list Re.regex) (line : string) : option string :=
  match ps with
  | [] => None
  | pattern :: ps' =>
      match Re.search true pattern line with
      | Some (_, caps) => Re.group 1 caps
      | None => first_match ps' line
      end
  end.

Definition extract_table_name (line : string) : option string :=
  first_match patterns line.

(** ** Value lists: [core.parse.parse_values] *)

Definition is_value_quote (c : ascii) : bool := Ascii.eqb c "'" || Ascii.eqb c dquote.

(** [current.append(char)] *)
Definition push (current : string) (char : ascii) : string :=
  current +:+ String char EmptyString.

(** The [for char in values_str] loop, with its four locals, and the final
    [if current]. *)
Fixpoint parse_values_loop (values_str : string) (values : list string)
    (current : string) (in_quotes escape : bool) : list string :=
  match values_str with
  | EmptyString =>
      if Py.truthy current then values ++ [Py.strip current] else values
  | String char rest =>
      if escape then parse_values_loop rest values (push current char) in_quotes false
      else if Ascii.eqb char "\" then parse_values_loop rest values current in_quotes true
      else if is_value_quote char then parse_values_loop rest values current (negb in_quotes) false
      else if Ascii.eqb char "," && negb in_quotes
      then parse_values_loop rest (values ++ [Py.strip current]) EmptyString in_quotes false
      else parse_values_loop rest values (push current char) in_quotes false
  end.

Definition parse_values (values_str : string) : list string :=
  parse_values_loop values_str [] EmptyString false false.

(** ** The Extractor: [_extract_table_data] *)

(** [INSERT INTO `?{re.escape(table_name)}`?\s*\(([^)]+)\)\s*VALUES\s*(.*?)(?=\);|$)]
    compiled with IGNORECASE and DOTALL. *)
Definition insert_pattern (table_name : string) : Re.regex :=
  Re.seq [Re.text "INSERT INTO "; Re.Opt (Re.Lit "`"); Re.text table_name;
          Re.Opt (Re.Lit "`"); Re.Star (Re.Class Re.space);
          Re.Lit "("; Re.Group 1 (Re.Plus (Re.Class (fun c => negb (Ascii.eqb c ")"))));
          Re.Lit ")"; Re.Star (Re.Class Re.space); Re.text "VALUES";
          Re.Star (Re.Class Re.space); Re.Group 2 (Re.LazyStar (Re.Class Re.any));
          Re.Ahead (Re.Alt (Re.text ");") Re.Eol)].

(** The pairs [(cols, values)] that [insert_pattern.findall(line)] returns. *)
Definition insert_matches (table_name line : string) : list (string * string) :=
  map (fun caps => (default "" (Re.group 1 caps), default "" (Re.group 2 caps)))
      (Re.findall true (insert_pattern table_name) line).

(** [dict(zip(columns, values_list))]: a later pair overrides an earlier one. *)
Definition py_dict (pairs : list (string * string)) : gmap string string :=
  foldl (fun d kv => <[fst kv := snd kv]> d) ∅ pairs.

(** What the extraction has written: the header row once the output file is
    open, and the rows written after it. *)
Record Extraction := mkExtraction {
  columns : option (list string);
  rows : list (gmap string string);
  extracted_rows : nat
}.

(** The list of [col.strip().strip(Q)] for [col] in [cols.split(',')], [Q]
    being the backtick and the double quote. *)
Definition parse_columns (cols : string) : list string :=
  map (fun col => Py.strip_by quote2 (Py.strip col)) (Py.split_on "," cols).

(** The body of [for cols, values in matches]. *)
Definition extract_match (x : Extraction) (m : string * string) : Extraction :=
  let x1 :=
    match columns x with
    | None | Some [] => mkExtraction (Some (parse_columns (fst m))) [] (extracted_rows x)
    | Some _ => x
    end in
  let values_list := parse_values (snd m) in
  match columns x1 with
  | Some cols =>
      if Nat.eqb (length values_list) (length cols)
      then mkExtraction (columns x1) (rows x1 ++ [py_dict (zip cols values_list)])
                        (S (extracted_rows x1))
      else x1
  | None => x1
  end.

(** The body of [for line in sql_file]. *)
Definition extract_line (table_name : string) (x : Extraction) (line : string) : Extraction :=
  if Py.contains "INSERT INTO" (Py.upper line) && Py.contains table_name line
  then foldl extract_match x (insert_matches table_name line)
  else x.

Definition extract_table_data (lines : list string) (table_name : string) : Extraction :=
  foldl (extract_line table_name) (mkExtraction None [] 0) lines.

(** ** The Analyzer: [_analyze_dump] and [_process_line_for_analysis] *)

(** [self.stats]: the per-kind counters, the per-table map and the line count. *)
Record Stats := mkStats {
  create_table : nat;
  insert : nat;
  alter : nat;
  drop : nat;
  other : nat;
  total : nat;
  tables : gmap string nat;
  line_count : nat
}.

Definition initial_stats : Stats := mkStats 0 0 0 0 0 0 ∅ 0.

(** [tables[name] = tables.get(name, 0) + 1] when a name was found. *)
Definition count_table (table_name : option string) (tables : gmap string nat)
    : gmap string nat :=
  match table_name with
  | Some name => <[name := default 0 (tables !! name) + 1]> tables
  | None => tables
  end.

Definition process_line_for_analysis (st : Stats) (line : string) : Stats :=
  let line_upper := Py.strip (Py.upper line) in
  if negb (Py.truthy line_upper) || Py.startswith line_upper "--" then st
  else
    let total' := S (total st) in
    if Py.contains "CREATE TABLE" line_upper then
      mkStats (S (create_table st)) (insert st) (alter st) (drop st) (other st) total'
              (count_table (extract_table_name line) (tables st)) (line_count st)
    else if Py.contains "INSERT INTO" line_upper then
      mkStats (create_table st) (S (insert st)) (alter st) (drop st) (other st) total'
              (count_table (extract_table_name line) (tables st)) (line_count st)
    else if Py.contains "ALTER TABLE" line_upper then
      mkStats (create_table st) (insert st) (S (alter st)) (drop st) (other st) total'
              (tables st) (line_count st)
    else if Py.contains "DROP TABLE" line_upper then
      mkStats (create_table st) (insert st) (alter st) (S (drop st)) (other st) total'
              (tables st) (line_count st)
    else
      mkStats (create_table st) (insert st) (alter st) (drop st) (S (other st)) total'
              (tables st) (line_count st).

(** The body of the loop of [_analyze_dump]. *)
Definition analyze_line (st : Stats) (line : string) : Stats :=
  process_line_for_analysis
    (mkStats (create_table st) (insert st) (alter st) (drop st) (other st) (total st)
             (tables st) (S (line_count st))) line.

Definition analyze_dump (lines : list string) : Stats :=
  foldl analyze_line initial_stats lines.

(** ** The Validator: [_validate_dump] *)

Record Validation := mkValidation {
  tables_created : gset string;
  tables_referenced : gset string
}.

Definition add_table (table_name : option string) (s : gset string) : gset string :=
  match table_name with
  | Some name => {[name]} ∪ s
  | None => s
  end.

(** The body of the loop. *)
Definition validate_line (v : Validation) (line : string) : Validation :=
  let line_upper := Py.upper line in
  if Py.contains "CREATE TABLE" line_upper then
    mkValidation (add_table (extract_table_name line) (tables_created v)) (tables_referenced v)
  else if Py.contains "INSERT INTO" line_upper then
    mkValidation (tables_created v) (add_table (extract_table_name line) (tables_referenced v))
  else v.

Definition scan_tables (lines : list string) : Validation :=
  foldl validate_line (mkValidation ∅ ∅) lines.

Definition missing_message (table : string) : string :=
  "Missing CREATE TABLE for: " +:+ table.

(** [errors] at the end of [_validate_dump]; the order in which the set
    [missing_tables] is walked is that of [elements]. *)
Definition validate_dump (lines : list string) : list string :=
  let v := scan_tables lines in
  map missing_message (elements (tables_referenced v ∖ tables_created v)).

(** ** Files

    A file system is a map from paths to the contents of the regular files;
    paths are compared as they are written.  Directories are not part of the
    state: wherever the program needs a directory it is taken to be there,
    and no directory stands where the program opens a file.  What the map
    does decide is where a regular file stands: such a path is not a
    directory, so no directory can be made at it and no file opened below it.

    Files are opened in text mode: on reading, the newline conventions CR LF
    and CR are translated to LF (universal newlines), and the file is cut
    after each LF; on writing, text goes out unchanged (the line separator of
    the platform is LF). *)

(** [os.path.exists] and [os.path.isfile] *)
Definition file_at (fs : gmap string string) (path : string) : bool :=
  bool_decide (is_Some (fs !! path)).

(** The directories above a path: its prefixes that end before a [/]. *)
Fixpoint ancestors_from (above path : string) : list string :=
  match path with
  | EmptyString => []
  | String c rest =>
      (if Ascii.eqb c "/" && Py.truthy above then [above] else [])
      ++ ancestors_from (above +:+ String c EmptyString) rest
  end.

Definition ancestors (path : string) : list string := ancestors_from EmptyString path.

(** A regular file stands at one of the paths. *)
Definition in_the_way (fs : gmap string string) (paths : list string) : bool :=
  existsb (file_at fs) paths.

(** [os.makedirs(path, exist_ok=True)]: it raises when a regular file is at
    the path or at a directory above it. *)
Definition makedirs (path : string) (fs : gmap string string) : bool :=
  negb (in_the_way fs (ancestors path ++ [path])).

(** [open(path, 'w')]: the file system with the file created or emptied;
    [None] when it raises, for the empty path, a path that names a directory
    and a path below a regular file. *)
Definition open_write (path : string) (fs : gmap string string)
    : option (gmap string string) :=
  if negb (Py.truthy path) || Py.endswith path "/" || in_the_way fs (ancestors path)
  then None
  else Some (<[path := EmptyString]> fs).

Definition LF : ascii := ascii_of_nat 10.
Definition CR : ascii := ascii_of_nat 13.

Fixpoint universal_newlines (bytes : string) : string :=
  match bytes with
  | EmptyString => EmptyString
  | String c rest =>
      if Ascii.eqb c CR then
        String LF
          match rest with
          | String d rest' =>
              if Ascii.eqb d LF then universal_newlines rest' else universal_newlines rest
          | EmptyString => EmptyString
          end
      else String c (universal_newlines rest)
  end.

(** The lines [for line in file] yields, each with its terminator. *)
Fixpoint readlines (text : string) : list string :=
  match text with
  | EmptyString => []
  | String c rest =>
      if Ascii.eqb c LF then String c EmptyString :: readlines rest
      else match readlines rest with
           | [] => [String c EmptyString]
           | l :: ls => String c l :: ls
           end
  end.

Definition read_text (bytes : string) : list string :=
  readlines (universal_newlines bytes).

(** *** A file overwritten while it is read

    [for line in file] does not read the file at once: the interpreter
    fetches it block after block, a further block each time the text it holds
    has no complete line left.  When the program opens for writing the very
    file it is reading, the file is emptied; the loop still gets the rest of
    what had been fetched, cut where the last block ended, and then meets the
    end of the file. *)

Section Reader.
(** The size of a block. *)
Variable chunk : positive.

(** The decoder holds back a CR that ends a block, until the next block
    shows whether a LF follows. *)
Definition held_back (raw : string) : string :=
  if Py.endswith raw cr then String.substring 0 (String.length raw - 1) raw else raw.

Fixpoint count_lf (text : string) : nat :=
  match text with
  | EmptyString => 0
  | String c rest => (if Ascii.eqb c LF then 1 else 0) + count_lf rest
  end.

(** The complete lines in the text decoded from the blocks fetched so far. *)
Definition complete_lines (raw : string) : nat :=
  count_lf (universal_newlines (held_back raw)).

(** The number of blocks fetched when the line numbered [line] (from 0) is
    returned: the least number, from [k] on, that reaches the end of the file
    or holds that line complete. *)
Fixpoint blocks_fetched (fuel k line : nat) (bytes : string) : nat :=
  match fuel with
  | O => k
  | S fuel' =>
      if (String.length bytes <=? k * Pos.to_nat chunk)
         || (line <? complete_lines (String.substring 0 (k * Pos.to_nat chunk) bytes))
      then k
      else blocks_fetched fuel' (S k) line bytes
  end.

(** What has been fetched of the file when line [line] is returned. *)
Definition fetched (line : nat) (bytes : string) : string :=
  String.substring 0
    (blocks_fetched (String.length bytes) 1 line bytes * Pos.to_nat chunk) bytes.

(** The lines the loop gets from a file of content [bytes]: all of them, or,
    when the file is overwritten during the iteration of line [line], those
    of the text fetched until then. *)
Definition lines_read (overwritten : option nat) (bytes : string) : list string :=
  match overwritten with
  | Some line => read_text (fetched line bytes)
  | None => read_text bytes
  end.
End Reader.

(** ** The command line: [main] and [_validate_args] *)

Inductive mode := Analyze | ExtractMode | Validate | SplitMode | RestoreMode.

(** The arguments the modelled code reads, as [argparse] leaves them: an
    option that was not given is [None], a flag [false].  The mode is passed
    next to them. *)
Record Args := mkArgs {
  file : string;
  db_host : option string;
  db_user : option string;
  db_name : option string;
  create_database : bool;
  skip_errors : bool;
  from_report : bool;
  table : option string;
  output : option string;
  lines_per_file : Z;
  report : option string
}.

(** The arguments of a run with no option but [--output] and
    [--lines-per-file]. *)
Definition basic_args (file : string) (output : option string) (lines_per_file : Z)
    : Args :=
  mkArgs file None None None false false false None output lines_per_file None.

(** Truth value of an optional string argument: [None] and the empty
    string are false. *)
Definition given (a : option string) : bool :=
  match a with
  | Some s => Py.truthy s
  | None => false
  end.

(** The check of [main] after parsing: [true] when [parser.error] is not
    called, so that the processor is run. *)
Definition main_accepts (m : mode) (args : Args) : bool :=
  match m with
  | RestoreMode =>
      if negb (from_report args)
      then forallb given [db_host args; db_user args; db_name args]
      else given (report args)
  | _ => true
  end.

(** [_validate_args]; [path_exists] and [is_file] are [os.path.exists] and
    [os.path.isfile] of the dump. *)
Definition validate_args (m : mode) (args : Args) (path_exists is_file : bool) : outcome :=
  match m with
  | RestoreMode =>
      if forallb given [db_host args; db_user args; db_name args]
      then Completed else Raised
  | _ =>
      if negb path_exists then Raised
      else if negb is_file then Raised
      else Completed
  end.

(** ** The Splitter: [_split_dump] *)

(** A run of [k] zeros. *)
Fixpoint zeros (k : nat) : string :=
  match k with
  | O => EmptyString
  | S k' => String "0" (zeros k')
  end.

(** The format [{n:04d}]: decimal, padded with zeros to four digits. *)
Definition format_04d (n : nat) : string :=
  let digits := NilEmpty.string_of_uint (Nat.to_uint n) in
  zeros (4 - String.length digits) +:+ digits.

(** [os.path.join(output_dir, name)] for the part named [part_NNNN.sql] *)
Definition part_path (output_dir : string) (file_count : nat) : string :=
  (if Py.endswith output_dir "/" then output_dir else output_dir +:+ "/")
  +:+ "part_" +:+ format_04d file_count +:+ ".sql".

(** [self.args.output or "split_output"] *)
Definition output_dir_of (args : Args) : string :=
  match output args with
  | Some dir => if Py.truthy dir then dir else "split_output"
  | None => "split_output"
  end.

Record Split := mkSplit {
  file_count : nat;
  split_line_count : nat;
  current_file : option string;
  split_fs : gmap string string
}.

(** The body of the loop; [Raised] is the [ZeroDivisionError] of
    [line_count % self.args.lines_per_file] (or a write without a file). *)
Definition split_line (args : Args) (st : Split) (line : string) : outcome * Split :=
  if Z.eqb (lines_per_file args) 0 then (Raised, st)
  else
    let st1 :=
      if Z.eqb (Z.of_nat (split_line_count st) mod lines_per_file args) 0 then
        let path := part_path (output_dir_of args) (S (file_count st)) in
        mkSplit (S (file_count st)) (split_line_count st) (Some path)
                (<[path := EmptyString]> (split_fs st))
      else st in
    match current_file st1 with
    | Some path =>
        (Completed,
         mkSplit (file_count st1) (S (split_line_count st1)) (current_file st1)
                 (<[path := default EmptyString (split_fs st1 !! path) +:+ line]> (split_fs st1)))
    | None => (Raised, st1)
    end.

Fixpoint split_lines (args : Args) (st : Split) (lines : list string) : outcome * Split :=
  match lines with
  | [] => (Completed, st)
  | line :: lines' =>
      match split_line args st line with
      | (Completed, st') => split_lines args st' lines'
      | (Raised, st') => (Raised, st')
      end
  end.

(** The output parts, in sequence order. *)
Definition parts (output_dir : string) (st : Split) : list string :=
  map (fun i => default EmptyString (split_fs st !! part_path output_dir i))
      (List.seq 1 (file_count st)).

(** The number of lines the loop has read before the one at whose
    iteration it opens a part at [path], if it ever does. *)
Fixpoint opens_at (args : Args) (path : string) (st : Split) (lines : list string)
    (read : nat) : option nat :=
  match lines with
  | [] => None
  | line :: lines' =>
      match split_line args st line with
      | (Completed, st') =>
          if negb (Nat.eqb (file_count st') (file_count st))
             && bool_decide (current_file st' = Some path)
          then Some read
          else opens_at args path st' lines' (S read)
      | (Raised, _) => None
      end
  end.

(** The number of parts for [n] lines, [a] lines to a part. *)
Definition parts_needed (n a : Z) : Z := ((n + a - 1) / a)%Z.


(** ** The modes and [run] *)

(** [self.args.file[:-3]]: the file name without its last three characters. *)
Definition decompressed_path (args : Args) : string :=
  String.substring 0 (String.length (file args) - 3) (file args).

(** [self.args.output or f"{self.args.table}_extracted.csv"] *)
Definition output_file_of (args : Args) (table_name : string) : string :=
  match output args with
  | Some path => if Py.truthy path then path else table_name +:+ "_extracted.csv"
  | None => table_name +:+ "_extracted.csv"
  end.

(** The number of lines the loop of [_extract_table_data] has read before
    the one at whose iteration it opens the output file, if it ever does. *)
Fixpoint opens_output_at (table_name : string) (x : Extraction) (lines : list string)
    (read : nat) : option nat :=
  match lines with
  | [] => None
  | line :: lines' =>
      match columns (extract_line table_name x line) with
      | Some _ => Some read
      | None => opens_output_at table_name (extract_line table_name x line) lines' (S read)
      end
  end.

Section Run.
(** [gzip] decompression of a file's content; [None] when it raises. *)
Variable gunzip : string -> option string.
(** The block size of the reader. *)
Variable chunk : positive.
(** What [csv.DictWriter] writes for a header and rows. *)
Variable csv_text : list string -> list (gmap string string) -> string.
(** What is left in a dump when an extraction writes its output over it
    while reading it; it depends on the buffers of both files. *)
Variable extract_over_input : string -> string -> string.
(** The text of the report, which holds the clock. *)
Variable report_text : string.
(** The server: [_database_exists] ([None] when it raises; it returns
    [False] after an [Error]), [_create_database] ([false] when it raises)
    and [_execute_sql]. *)
Context {Engine : Type}.
Variable database_exists : Engine -> Engine * option bool.
Variable create_the_database : Engine -> Engine * bool.
Variable execute_sql : Engine -> string -> Engine * bool.

(** The outcome, the file system afterwards and the returned path.  The
    compressed file is opened first, then the decompressed one, then the
    content is copied. *)
Definition decompress_if_needed (args : Args) (fs : gmap string string)
    : outcome * gmap string string * string :=
  if Py.endswith (file args) ".gz" then
    match fs !! file args with
    | Some gz =>
        if Py.truthy (decompressed_path args) then
          match gunzip gz with
          | Some text =>
              (Completed, <[decompressed_path args := text]> fs, decompressed_path args)
          | None =>
              (Raised, <[decompressed_path args := EmptyString]> fs, decompressed_path args)
          end
        else (Raised, fs, decompressed_path args)
    | None => (Raised, fs, decompressed_path args)
    end
  else (Completed, fs, file args).

Definition cleanup_temp_file (args : Args) (file_path : string)
    (fs : gmap string string) : gmap string string :=
  if negb (String.eqb file_path (file args)) && bool_decide (is_Some (fs !! file_path))
  then delete file_path fs
  else fs.

(** A mode that only reads the dump: [_analyze_dump], [_validate_dump]. *)
Definition read_only_mode (args : Args) (fs : gmap string string)
    : outcome * gmap string string :=
  match decompress_if_needed args fs with
  | (Completed, fs1, file_path) =>
      match fs1 !! file_path with
      | Some _ => (Completed, cleanup_temp_file args file_path fs1)
      | None => (Raised, fs1)
      end
  | (Raised, fs1, _) => (Raised, fs1)
  end.

(** [_extract_table_data] on the file system: the output file is opened at
    the first match, and holds the header and the rows when the loop ends. *)
Definition extract_to_file (file_path table_name output_file : string)
    (fs : gmap string string) : outcome * gmap string string :=
  match fs !! file_path with
  | Some bytes =>
      match opens_output_at table_name (mkExtraction None [] 0) (read_text bytes) 0 with
      | Some _ =>
          match open_write output_file fs with
          | Some _ =>
              let x := extract_table_data (read_text bytes) table_name in
              (Completed,
               <[output_file :=
                   if String.eqb output_file file_path
                   then extract_over_input bytes table_name
                   else csv_text (default [] (columns x)) (rows x)]> fs)
          | None => (Raised, fs)
          end
      | None => (Completed, fs)
      end
  | None => (Raised, fs)
  end.

(** [_extract_data] *)
Definition extract_data (args : Args) (fs : gmap string string)
    : outcome * gmap string string :=
  match table args with
  | Some table_name =>
      if Py.truthy table_name then
        match decompress_if_needed args fs with
        | (Completed, fs1, file_path) =>
            match extract_to_file file_path table_name
                    (output_file_of args table_name) fs1 with
            | (Completed, fs2) => (Completed, cleanup_temp_file args file_path fs2)
            | (Raised, fs2) => (Raised, fs2)
            end
        | (Raised, fs1, _) => (Raised, fs1)
        end
      else (Raised, fs)
  | None => (Raised, fs)
  end.

(** [_split_dump]: the directory of the parts is made before the dump is
    opened; a part opened at the path of the dump cuts what the loop reads. *)
Definition split_dump (args : Args) (fs : gmap string string)
    : outcome * gmap string string :=
  match decompress_if_needed args fs with
  | (Completed, fs1, file_path) =>
      if makedirs (output_dir_of args) fs1 then
        match fs1 !! file_path with
        | Some bytes =>
            let start := mkSplit 0 0 None fs1 in
            let lines :=
              lines_read chunk (opens_at args file_path start (read_text bytes) 0) bytes in
            match split_lines args start lines with
            | (Completed, st) => (Completed, cleanup_temp_file args file_path (split_fs st))
            | (Raised, st) => (Raised, split_fs st)
            end
        | None => (Raised, fs1)
        end
      else (Raised, fs1)
  | (Raised, fs1, _) => (Raised, fs1)
  end.

(** The check of [_restore_to_db] before its loop: the database exists, or
    is created with [--create-database]. *)
Definition ensure_database (args : Args) (e : Engine) : outcome * Engine :=
  match database_exists e with
  | (e1, Some true) => (Completed, e1)
  | (e1, Some false) =>
      if create_database args then
        match create_the_database e1 with
        | (e2, true) => (Completed, e2)
        | (e2, false) => (Raised, e2)
        end
      else (Raised, e1)
  | (e1, None) => (Raised, e1)
  end.

(** [_restore_to_db] on the file system and the server. *)
Definition restore_dump (args : Args) (fs : gmap string string) (e : Engine)
    : outcome * gmap string string * Run Engine :=
  match decompress_if_needed args fs with
  | (Completed, fs1, file_path) =>
      match ensure_database args e with
      | (Completed, e1) =>
          match fs1 !! file_path with
          | Some bytes =>
              match restore_to_db execute_sql (skip_errors args) (read_text bytes) e1 with
              | (Completed, r) => (Completed, cleanup_temp_file args file_path fs1, r)
              | (Raised, r) => (Raised, fs1, r)
              end
          | None => (Raised, fs1, mkRun e1 0 [])
          end
      | (Raised, e1) => (Raised, fs1, mkRun e1 0 [])
      end
  | (Raised, fs1, _) => (Raised, fs1, mkRun e 0 [])
  end.

(** The end of [_generate_report]: the report is saved when [--report] was
    given. *)
Definition generate_report (args : Args) (fs : gmap string string)
    : outcome * gmap string string :=
  if given (report args) then
    match open_write (default EmptyString (report args)) fs with
    | Some _ => (Completed, <[default EmptyString (report args) := report_text]> fs)
    | None => (Raised, fs)
    end
  else (Completed, fs).

(** [run]: the exit status of the process (0, or 1 after [sys.exit(1)]),
    the file system it leaves and what it did on the server. *)
Definition run (m : mode) (args : Args) (fs : gmap string string) (e : Engine)
    : nat * gmap string string * Run Engine :=
  match validate_args m args (file_at fs (file args)) (file_at fs (file args)) with
  | Completed =>
      let '(o, fs1, r) :=
        match m with
        | Analyze | Validate => (read_only_mode args fs, mkRun e 0 [])
        | ExtractMode => (extract_data args fs, mkRun e 0 [])
        | SplitMode => (split_dump args fs, mkRun e 0 [])
        | RestoreMode => restore_dump args fs e
        end in
      match o with
      | Completed =>
          match generate_report args fs1 with
          | (Completed, fs2) => (0, fs2, r)
          | (Raised, fs2) => (1, fs2, r)
          end
      | Raised => (1, fs1, r)
      end
  | Raised => (1, fs, mkRun e 0 [])
  end.
End Run.

(** ** The claims as the specification states them, for comparison with the code *)

Module Spec.

(** The Assembler of the specification cuts the line at the terminator:
    the text up to and including the first [;], and the remainder. *)
Fixpoint split_at_terminator (content : string) : string * string :=
  match content with
  | EmptyString => (EmptyString, EmptyString)
  | String c rest =>
      if Ascii.eqb c ";" then (String c EmptyString, rest)
      else let '(upto, remainder) := split_at_terminator rest in (String c upto, remainder)
  end.

(** The statement the specification emits for a line that holds a
    terminator, and the buffer it keeps for the next statement. *)
Definition emitted (a : Assembler) (line : string) : string :=
  Py.strip (current_statement a +:+ fst (split_at_terminator (fst (process_line line (scan_state a))))).

Definition carried_over (a : Assembler) (line : string) : string :=
  snd (split_at_terminator (fst (process_line line (scan_state a)))) +:+ " ".

(** The claim on the Assembler, at one line: when the cleaned line holds a
    terminator and ends outside a string, the statement emitted is the buffer
    up to and including the terminator and the remainder starts the next
    buffer. *)
Definition cuts_at_terminator (a : Assembler) (line : string) : Prop :=
  Py.contains ";" (fst (process_line line (scan_state a))) = true ->
  in_string (snd (process_line line (scan_state a))) = None ->
  fst (assemble_line a line) = Some (emitted a line) /\
  current_statement (snd (assemble_line a line)) = carried_over a line.

(** The Classifier of the specification: the kind of a statement by the
    keywords at its start, ignoring case, and its table identifier. *)
Inductive kind := CREATE_TABLE | INSERT | ALTER | DROP | OTHER.

Definition classify (statement : string) : kind * option string :=
  let upper := Py.upper statement in
  if Py.startswith upper "CREATE TABLE" then (CREATE_TABLE, extract_table_name statement)
  else if Py.startswith upper "INSERT INTO" || Py.startswith upper "INSERT IGNORE INTO"
  then (INSERT, extract_table_name statement)
  else if Py.startswith upper "ALTER TABLE" then (ALTER, None)
  else if Py.startswith upper "DROP TABLE" then (DROP, None)
  else (OTHER, None).

Definition is_kind (k : kind) (statement : string) : bool :=
  match fst (classify statement), k with
  | CREATE_TABLE, CREATE_TABLE | INSERT, INSERT | ALTER, ALTER | DROP, DROP | OTHER, OTHER => true
  | _, _ => false
  end.


Definition insert_statements (lines : list string) : nat :=
  length (List.filter (is_kind INSERT) (statements_of lines)).



(** The claim on the Extractor: the two rows of the statement
    [INSERT INTO t (a,b) VALUES (1,'x,y'), (2,'z')]. *)
Definition two_rows : list (gmap string string) :=
  [ py_dict [("a", "1"); ("b", "x,y")]; py_dict [("a", "2"); ("b", "z")] ].




End Spec.

(** ** Physical lines, as the Analyzer and the Validator read them *)

(** A line the Analyzer counts: not blank and not a [--] comment. *)
Definition counted (line : string) : bool :=
  let line_upper := Py.strip (Py.upper line) in
  Py.truthy line_upper && negb (Py.startswith line_upper "--").

Definition create_table_line (line : string) : bool :=
  counted line && Py.contains "CREATE TABLE" (Py.strip (Py.upper line)).

Definition insert_line (line : string) : bool :=
  counted line && negb (Py.contains "CREATE TABLE" (Py.strip (Py.upper line)))
  && Py.contains "INSERT INTO" (Py.strip (Py.upper line)).

Definition keyword_line (line : string) : bool :=
  create_table_line line || insert_line line.

Definition bump (b : bool) : nat := if b then 1 else 0.

(** A fixture written statement by statement: the first physical line of
    each statement and the lines that continue it. *)
Definition fixture : Type := list (string * list string).

Definition fixture_lines (f : fixture) : list string :=
  concat (map (fun s => fst s :: snd s) f).

(** The continuation lines hold neither CREATE TABLE nor INSERT INTO. *)
Definition plain_continuations (f : fixture) : Prop :=
  Forall (fun s => Forall (fun l => keyword_line l = false) (snd s)) f.

(** A line that declares [table] for the Validator, and one that refers to it. *)
Definition declares (table line : string) : Prop :=
  Py.contains "CREATE TABLE" (Py.upper line) = true /\
  extract_table_name line = Some table.

Definition refers_to (table line : string) : Prop :=
  Py.contains "CREATE TABLE" (Py.upper line) = false /\
  Py.contains "INSERT INTO" (Py.upper line) = true /\
  extract_table_name line = Some table.


(** A text without quote characters and without backslashes. *)
Fixpoint plain (s : string) : bool :=
  match s with
  | EmptyString => true
  | String c s' => negb (Ascii.eqb c "\") && negb (is_value_quote c) && plain s'
  end.

(** The Splitter between two lines: either nothing was read yet, or the
    file being written is the part numbered [file_count]. *)
Definition split_invariant (output_dir : string) (st : Split) : Prop :=
  split_line_count st = 0 \/
  (1 <= file_count st /\ current_file st = Some (part_path output_dir (file_count st))).

(** The number a run of decimal digits denotes. *)
Definition parse_decimal (s : string) : option nat :=
  option_map Nat.of_uint (NilEmpty.uint_of_string s).

(** States of the Scanner reachable from the initial one, line after line. *)
Inductive reachable : ScanState -> Prop :=
| reachable_initial : reachable initial_scan
| reachable_step st line :
    reachable st -> reachable (snd (process_line line st)).

(** The invariant of the Scanner's flags. *)
Definition exclusive (st : ScanState) : Prop :=
  (in_string st <> None -> in_multiline_comment st = false) /\
  (escape_next st = true -> in_string st <> None).

(** ** Further notions used by the properties of the code *)

(** The Scanner's state after the lines of a file. *)
Definition scan_lines (lines : list string) : ScanState :=
  foldl (fun st line => snd (process_line line st)) initial_scan lines.

(** [a] is [b] with some of its characters left out. *)
Inductive subsequence : string -> string -> Prop :=
| subsequence_nil : subsequence EmptyString EmptyString
| subsequence_skip c a b : subsequence a b -> subsequence a (String c b)
| subsequence_keep c a b : subsequence a b -> subsequence (String c a) (String c b).

(** Every character of [s] satisfies [p]. *)
Fixpoint all_chars (p : ascii -> bool) (s : string) : bool :=
  match s with
  | EmptyString => true
  | String c s' => p c && all_chars p s'
  end.

(** A character that is neither a quote nor the first character of a
    comment marker. *)
Definition ordinary (c : ascii) : bool :=
  negb (is_quote c) && negb (Ascii.eqb c "-") && negb (Ascii.eqb c "/").

(** Inside a string opened by [q]: neither the closing quote nor the escape
    character. *)
Definition inside (q : ascii) (c : ascii) : bool :=
  negb (Ascii.eqb c q) && negb (Ascii.eqb c "\").

(** The text [s] put in front of a scan's cleaned output. *)
Definition prepend (s : string) (r : string * ScanState) : string * ScanState :=
  (s +:+ fst r, snd r).

(** ** The table-scoped restore: [_extract_and_execute_inserts] *)

(** The pattern of the INSERT statements of one table, compiled with
    IGNORECASE and DOTALL: the text INSERT INTO, the table name between
    optional backticks, then as little as possible up to a [;], all of it
    group 1. *)
Definition insert_statement_pattern (table_name : string) : Re.regex :=
  Re.Group 1
    (Re.seq [Re.text "INSERT INTO "; Re.Opt (Re.Lit "`"); Re.text table_name;
             Re.Opt (Re.Lit "`"); Re.LazyStar (Re.Class Re.any); Re.Lit ";"]).

(** [insert_pattern.findall(content)] *)
Definition insert_statements (table_name content : string) : list string :=
  map (fun caps => default EmptyString (Re.group 1 caps))
      (Re.findall true (insert_statement_pattern table_name) content).

Section Inserts.
Context {Engine : Type}.
Variable get_cursor : Engine -> Engine * bool.
Variable cursor_execute : Engine -> string -> Engine * ending.
Variable skip_errors : bool.
Variable batch_size : Z.

(** The loop over the matches, with its locals [current_batch] and
    [insert_count], and the batch left over after it; the result is the
    outcome, the returned [insert_count] and the run. *)
Fixpoint insert_loop (matches : list string) (current_batch : list string)
    (insert_count : nat) (r : Run Engine) : outcome * nat * Run Engine :=
  match matches with
  | [] =>
      match current_batch with
      | [] => (Completed, insert_count, r)
      | _ =>
          match execute_batch get_cursor cursor_execute skip_errors current_batch r with
          | (Completed, r') => (Completed, insert_count + length current_batch, r')
          | (Raised, r') => (Raised, insert_count, r')
          end
      end
  | insert_stmt :: matches' =>
      let batch := current_batch ++ [insert_stmt] in
      if (batch_size <=? Z.of_nat (length batch))%Z then
        match execute_batch get_cursor cursor_execute skip_errors batch r with
        | (Completed, r') => insert_loop matches' [] (insert_count + length batch) r'
        | (Raised, r') => (Raised, insert_count, r')
        end
      else insert_loop matches' batch insert_count r
  end.

Definition extract_and_execute_inserts (content table_name : string) (r : Run Engine)
    : outcome * nat * Run Engine :=
  insert_loop (insert_statements table_name content) [] 0 r.
End Inserts.

(** A server that never fails: a cursor is always obtained and every
    statement returns. *)
Definition never_fails {Engine : Type}
    (get_cursor : Engine -> Engine * bool)
    (cursor_execute : Engine -> string -> Engine * ending) : Prop :=
  (forall e, snd (get_cursor e) = true) /\
  (forall e s, snd (cursor_execute e s) = Returns).

(** A server whose statements fail with [Error] only, and on which a cursor
    is always obtained. *)
Definition only_connector_errors {Engine : Type}
    (get_cursor : Engine -> Engine * bool)
    (cursor_execute : Engine -> string -> Engine * ending) : Prop :=
  (forall e, snd (get_cursor e) = true) /\
  (forall e s, snd (cursor_execute e s) <> RaisesOther).

(** A server that counts its calls, always gives a cursor, and fails call
    number [k] (from 0) with [failure]. *)
Definition cursor_of (e : nat) : nat * bool := (e, true).
Definition fail_at (k : nat) (failure : ending) (e : nat) (stmt : string) : nat * ending :=
  (S e, if Nat.eqb e k then failure else Returns).
Definition return_all (e : unit) (stmt : string) : unit * ending := (tt, Returns).
Definition cursor_always (e : unit) : unit * bool := (tt, true).

(** ** Value lists written out *)

(** The values [fields] and [last], each between single quotes, separated by
    commas. *)
Fixpoint quoted_list (fields : list string) (last : string) : string :=
  match fields with
  | [] => String "'" (last +:+ "'")
  | f :: fields' => String "'" (f +:+ "'," +:+ quoted_list fields' last)
  end.

(** A list of pieces without its last piece when that one is empty. *)
Fixpoint drop_empty_last (pieces : list string) : list string :=
  match pieces with
  | [] => []
  | [x] => if Py.truthy x then [x] else []
  | x :: pieces' => x :: drop_empty_last pieces'
  end.

(** ** Patterns without groups *)

(** A pattern made of literals, classes, sequences, alternatives and
    options only: it captures nothing. *)
Fixpoint passive (r : Re.regex) : bool :=
  match r with
  | Re.Empty | Re.Lit _ | Re.Class _ | Re.Eol => true
  | Re.Seq r1 r2 | Re.Alt r1 r2 => passive r1 && passive r2
  | Re.Opt r1 => passive r1
  | _ => false
  end.

(** ** Counting lines *)

(** The lines on which the Analyzer counts the table [t]. *)
Definition names_table (t : string) (line : string) : bool :=
  keyword_line line && bool_decide (extract_table_name line = Some t).

(** ** Extractions *)

(** What holds of an extraction between two statements. *)
Definition consistent_extraction (x : Extraction) : Prop :=
  extracted_rows x = length (rows x) /\
  match columns x with
  | None => rows x = []
  | Some cols =>
      cols <> [] /\ Forall (fun row => dom row = list_to_set cols) (rows x)
  end.

(** ** Backups: [MariaDBBackup.compress_backup] *)

Section Backup.
(** [gzip] compression of a file's content. *)
Variable gzip : string -> string.

End Backup.


(** ** The table-scoped restore: [_extract_create_table] *)

(** The pattern of the CREATE TABLE statement of one table, compiled with
    IGNORECASE and DOTALL: CREATE TABLE, an optional IF NOT EXISTS, the
    table name between optional backticks, then as little as possible up to
    a [;], all of it group 1. *)
Definition create_table_pattern (table_name : string) : Re.regex :=
  Re.Group 1
    (Re.seq [Re.text "CREATE TABLE "; Re.Opt (Re.text "IF NOT EXISTS ");
             Re.Opt (Re.Lit "`"); Re.text table_name; Re.Opt (Re.Lit "`");
             Re.LazyStar (Re.Class Re.any); Re.Lit ";"]).

(** [_extract_create_table]: group 1 of the first match in the content of
    the file, [None] when there is no match. *)
Definition extract_create_table (content table_name : string) : option string :=
  match Re.search true (create_table_pattern table_name) content with
  | Some (_, caps) => Re.group 1 caps
  | None => None
  end.

(** The most characters a pattern without groups can consume. *)
Fixpoint width (r : Re.regex) : nat :=
  match r with
  | Re.Lit _ | Re.Class _ => 1
  | Re.Seq r1 r2 => width r1 + width r2
  | Re.Alt r1 r2 => Nat.max (width r1) (width r2)
  | Re.Opt r1 => width r1
  | _ => 0
  end.

(** Not the terminator. *)
Definition not_terminator (c : ascii) : bool := negb (Ascii.eqb c ";").
(** * Properties *)

(** ** Strings *)

Lemma append_empty_r (s : string) : s +:+ "" = s.
Proof. induction s as [|c s IH]; simpl; [reflexivity | now rewrite IH]. Qed.

Lemma append_assoc (a b c : string) : (a +:+ b) +:+ c = a +:+ (b +:+ c).
Proof. induction a as [|x a IH]; simpl; [reflexivity | now rewrite IH]. Qed.

Lemma length_append (a b : string) :
  String.length (a +:+ b) = String.length a + String.length b.
Proof. induction a as [|x a IH]; simpl; [reflexivity | now rewrite IH]. Qed.

Lemma prefix_empty (s : string) : String.prefix "" s = true.
Proof. now destruct s. Qed.

Lemma prefix2 (c d : ascii) (s : string) :
  String.prefix (String c (String d "")) s = starts2 c d s.
Proof.
  destruct s as [|x [|y s]]; simpl; try reflexivity.
  - destruct (ascii_dec c x); reflexivity.
  - destruct (ascii_dec c x) as [->|n].
    + rewrite Ascii.eqb_refl. destruct (ascii_dec d y) as [->|n'].
      * now rewrite Ascii.eqb_refl, prefix_empty.
      * simpl. symmetry. apply Ascii.eqb_neq. congruence.
    + assert (Ascii.eqb x c = false) as -> by (apply Ascii.eqb_neq; congruence).
      reflexivity.
Qed.

Lemma contains_cons (sub : string) (c : ascii) (s : string) :
  Py.contains sub (String c s) = String.prefix sub (String c s) || Py.contains sub s.
Proof. reflexivity. Qed.

Lemma contains_char (c : ascii) (s : string) :
  Py.contains (String c "") s = true -> exists a b, s = a +:+ String c b.
Proof.
  induction s as [|x s IH]; simpl.
  - discriminate.
  - destruct (ascii_dec c x) as [->|n].
    + intros _. exists "", s. reflexivity.
    + simpl. intros H. destruct (IH H) as (a & b & ->).
      exists (String x a), b. reflexivity.
Qed.

(** ** The Scanner *)

Lemma scan_cons ic ins esc char rest :
  scan ic ins esc (String char rest) =
  if esc then emit char (scan ic ins false rest)
  else match ins with
  | Some q =>
      if Ascii.eqb char "\" then emit char (scan ic (Some q) true rest)
      else if Ascii.eqb char q then emit char (scan ic None false rest)
      else emit char (scan ic (Some q) false rest)
  | None =>
      if ic then
        if starts2 "*" "/" (String char rest)
        then scan false None false (match rest with String _ r => r | _ => rest end)
        else scan true None false rest
      else if starts2 "-" "-" (String char rest)
      then (EmptyString, mkScan false None false)
      else if starts2 "/" "*" (String char rest)
      then scan true None false (match rest with String _ r => r | _ => rest end)
      else if is_quote char then emit char (scan false (Some char) false rest)
      else emit char (scan false None false rest)
  end.
Proof.
  destruct rest as [|next rest']; reflexivity.
Qed.

(** Induction on a text by its length, for loops that advance by one or two
    characters. *)
Lemma string_length_ind (P : string -> Prop) :
  (forall s, (forall t, String.length t < String.length s -> P t) -> P s) ->
  forall s, P s.
Proof.
  intros step s.
  assert (H : forall n t, String.length t < n -> P t).
  { induction n as [|n IH]; intros t Ht; [lia|].
    apply step. intros u Hu. apply IH. lia. }
  apply (H (S (String.length s))). lia.
Qed.

Lemma tail2_shorter (c : ascii) (rest : string) :
  String.length (match rest with String _ r => r | _ => rest end)
  < String.length (String c rest).
Proof. destruct rest; simpl; lia. Qed.

(** The flags stay exclusive along a scan: a string region is never also a
    comment region, and an escape is only ever pending inside a string. *)
Lemma scan_exclusive (line : string) :
  forall ic ins esc,
    exclusive (mkScan ic ins esc) -> exclusive (snd (scan ic ins esc line)).
Proof.
  induction line as [line IH] using string_length_ind.
  intros ic ins esc Hex. destruct line as [|char rest]; [exact Hex|].
  assert (IH1 : forall ic ins esc, exclusive (mkScan ic ins esc) ->
                  exclusive (snd (scan ic ins esc rest))).
  { intros. apply IH; [simpl; lia | assumption]. }
  assert (IH2 : forall ic ins esc, exclusive (mkScan ic ins esc) ->
                  exclusive (snd (scan ic ins esc
                     (match rest with String _ r => r | _ => rest end)))).
  { intros. apply IH; [apply tail2_shorter | assumption]. }
  rewrite scan_cons. destruct Hex as [Hs He]; simpl in Hs, He.
  destruct esc.
  - apply IH1. split; simpl; [exact Hs | discriminate].
  - destruct ins as [q|].
    + assert (ic = false) as -> by (apply Hs; discriminate).
      repeat match goal with |- context [if ?b then _ else _] => destruct b end;
        unfold emit; simpl snd; apply IH1; split; simpl; congruence.
    + repeat match goal with |- context [if ?b then _ else _] => destruct b end;
        unfold emit; simpl snd;
        first [ apply IH1 | apply IH2 | idtac ]; split; simpl; congruence.
Qed.

Lemma process_line_exclusive (line : string) (st : ScanState) :
  exclusive st -> exclusive (snd (process_line line st)).
Proof. destruct st. apply scan_exclusive. Qed.

(** Every state reachable from the initial one keeps the flags exclusive: it
    never has both [in_string] and [in_multiline_comment] set. *)
Lemma reachable_exclusive (st : ScanState) :
  reachable st ->
  exclusive st /\ ~ (in_string st <> None /\ in_multiline_comment st = true).
Proof.
  intros Hr. assert (He : exclusive st).
  { induction Hr; [split; simpl; congruence | now apply process_line_exclusive]. }
  split; [exact He|]. intros [Hs Hc]. destruct He as [He _].
  rewrite (He Hs) in Hc. discriminate.
Qed.

(** A pending escape is consumed first: the next character goes to the
    output as it is, whatever it is, and the scan continues with the escape
    cleared and the other flags unchanged. *)
Lemma escape_consumed_first ic ins (char : ascii) (rest : string) :
  scan ic ins true (String char rest) = emit char (scan ic ins false rest).
Proof. now rewrite scan_cons. Qed.

(** *** Block comments *)

Lemma contains2_cons (c d x : ascii) (s : string) :
  Py.contains (String c (String d "")) (String x s) =
  starts2 c d (String x s) || Py.contains (String c (String d "")) s.
Proof. rewrite contains_cons, prefix2. reflexivity. Qed.

Lemma prefix_app (sub x w : string) :
  String.prefix sub x = true -> String.prefix sub (x +:+ w) = true.
Proof.
  revert x. induction sub as [|a sub IH]; intros x H.
  - apply prefix_empty.
  - destruct x as [|b x]; simpl in *; [discriminate|].
    destruct (ascii_dec a b); [now apply IH | discriminate].
Qed.

Lemma contains_app_l (sub x w : string) :
  Py.contains sub x = true -> Py.contains sub (x +:+ w) = true.
Proof.
  induction x as [|b x IH]; intros H.
  - simpl in H. rewrite orb_false_r in H.
    destruct sub; [|discriminate H].
    destruct w; reflexivity.
  - rewrite contains_cons in H. simpl String.append. rewrite contains_cons.
    apply orb_true_iff in H as [H|H]; apply orb_true_iff.
    + left. now apply (prefix_app sub (String b x) w).
    + right. now apply IH.
Qed.

Lemma contains_app_r (sub x w : string) :
  Py.contains sub w = true -> Py.contains sub (x +:+ w) = true.
Proof.
  intros H. induction x as [|b x IH]; [exact H|].
  simpl String.append. rewrite contains_cons, IH. apply orb_true_r.
Qed.

(** Inside a block comment that does not close, everything is discarded. *)
Lemma scan_comment_unclosed (body : string) :
  Py.contains "*/" body = false ->
  scan true None false body = (EmptyString, mkScan true None false).
Proof.
  induction body as [|c body IH]; intros H; [reflexivity|].
  rewrite contains2_cons in H. apply orb_false_iff in H as [H1 H2].
  rewrite scan_cons, H1. now apply IH.
Qed.

(** A block comment that closes is discarded whole; the scan goes on after
    the closing marker as if the comment had not been there. *)
Lemma scan_comment_closed (body tail : string) :
  Py.contains "*/" body = false ->
  scan true None false (body +:+ "*/" +:+ tail) = scan false None false tail.
Proof.
  induction body as [|c body IH]; intros H; [reflexivity|].
  rewrite contains2_cons in H. apply orb_false_iff in H as [H1 H2].
  change (String c body +:+ "*/" +:+ tail) with (String c (body +:+ "*/" +:+ tail)).
  rewrite scan_cons.
  assert (starts2 "*" "/" (String c (body +:+ "*/" +:+ tail)) = false) as ->.
  { destruct body as [|d body]; simpl in *; [|exact H1].
    destruct (Ascii.eqb c "*"); reflexivity. }
  now apply IH.
Qed.

(** Outside strings, a text without quote characters opens no string. *)
Lemma scan_no_quote (line : string) :
  forall ic,
    (forall a b c, line = a +:+ String c b -> is_quote c = false) ->
    in_string (snd (scan ic None false line)) = None.
Proof.
  induction line as [line IH] using string_length_ind.
  intros ic Hq. destruct line as [|char rest]; [reflexivity|].
  assert (Hc : is_quote char = false) by (apply (Hq "" rest); reflexivity).
  assert (IH1 : forall ic, in_string (snd (scan ic None false rest)) = None).
  { intros. apply IH; [simpl; lia|]. intros a b c ->.
    apply (Hq (String char a) b). reflexivity. }
  assert (IH2 : forall ic, in_string (snd (scan ic None false
                 (match rest with String _ r => r | _ => rest end))) = None).
  { intros. apply IH; [apply tail2_shorter|]. destruct rest as [|d r].
    - intros a b c E. destruct a; discriminate.
    - intros a b c ->. apply (Hq (String char (String d a)) b). reflexivity. }
  rewrite scan_cons, Hc.
  repeat match goal with |- context [if ?b then _ else _] => destruct b end;
    unfold emit; simpl snd; auto.
Qed.

(** *** Trailing white space *)

Lemma rstrip_app_cons (a : string) (c : ascii) (b : string) :
  Py.isspace c = false ->
  Py.rstrip (a +:+ String c b) = a +:+ String c (Py.rstrip b).
Proof.
  intros Hc. unfold Py.rstrip. induction a as [|x a IH]; simpl.
  - rewrite Hc. now destruct (Py.rstrip_by Py.isspace b).
  - rewrite IH. now destruct a.
Qed.

Lemma rstrip_prefix (s : string) : exists w, s = Py.rstrip s +:+ w.
Proof.
  unfold Py.rstrip. induction s as [|c s [w IH]]; simpl.
  - now exists "".
  - destruct (Py.rstrip_by Py.isspace s) eqn:E.
    + destruct (Py.isspace c).
      * now exists (String c s).
      * exists s. reflexivity.
    + exists w. simpl in *. now f_equal.
Qed.

Lemma is_quote_not_space (q : ascii) : is_quote q = true -> Py.isspace q = false.
Proof.
  unfold is_quote. intros H.
  apply orb_true_iff in H as [H|H]; [apply orb_true_iff in H as [H|H]|];
    apply Ascii.eqb_eq in H; subst; reflexivity.
Qed.

(** C6. A block comment at the start of a line whose text holds a quote
    character: when the comment stays open the cleaned output is empty and
    the returned state is inside the comment and outside any string; when it
    closes on the line, the line is scanned as its remainder alone, so the
    quote is not appended and opens no string region; and the returned state
    is outside any string unless the remainder itself opens one.  The last
    two equations say the same of the loop wherever in a line it meets the
    comment marker outside strings and comments. *)
Theorem block_comment_quote_ignored (q : ascii) (before after tail : string) :
  is_quote q = true ->
  Py.contains "*/" (before +:+ String q after) = false ->
  process_line ("/*" +:+ before +:+ String q after) initial_scan
    = (EmptyString, mkScan true None false) /\
  process_line ("/*" +:+ (before +:+ String q after) +:+ "*/" +:+ tail) initial_scan
    = process_line tail initial_scan /\
  ((forall a b c, Py.rstrip tail = a +:+ String c b -> is_quote c = false) ->
   in_string (snd (process_line
     ("/*" +:+ (before +:+ String q after) +:+ "*/" +:+ tail) initial_scan)) = None) /\
  scan false None false ("/*" +:+ before +:+ String q after)
    = (EmptyString, mkScan true None false) /\
  scan false None false ("/*" +:+ (before +:+ String q after) +:+ "*/" +:+ tail)
    = scan false None false tail.
Proof.
  intros Hq Hbody.
  assert (Hscan :
    scan false None false ("/*" +:+ before +:+ String q after)
      = (EmptyString, mkScan true None false) /\
    scan false None false ("/*" +:+ (before +:+ String q after) +:+ "*/" +:+ tail)
      = scan false None false tail).
  { split; simpl.
    - now apply scan_comment_unclosed.
    - now apply (scan_comment_closed _ tail). }
  refine ((fun H => conj (proj1 H) (conj (proj1 (proj2 H))
            (conj (proj2 (proj2 H)) Hscan))) _).
  assert (Hclosed :
    process_line ("/*" +:+ (before +:+ String q after) +:+ "*/" +:+ tail) initial_scan
    = process_line tail initial_scan).
  { unfold process_line; simpl.
    replace (String "/" (String "*" ((before +:+ String q after) +:+ String "*" (String "/" tail))))
      with ((String "/" (String "*" ((before +:+ String q after) +:+ "*"))) +:+ String "/" tail)
      by (simpl; now rewrite append_assoc).
    rewrite rstrip_app_cons by reflexivity. simpl.
    rewrite append_assoc. now apply (scan_comment_closed _ (Py.rstrip tail)). }
  split; [|split].
  - unfold process_line; simpl.
    replace (String "/" (String "*" (before +:+ String q after)))
      with ((String "/" (String "*" before)) +:+ String q after) by reflexivity.
    rewrite rstrip_app_cons by now apply is_quote_not_space.
    simpl. apply scan_comment_unclosed.
    destruct (Py.contains "*/" (before +:+ String q (Py.rstrip after))) eqn:E; [|reflexivity].
    destruct (rstrip_prefix after) as [w Hw].
    assert (E' := contains_app_l _ _ w E).
    rewrite append_assoc in E'. simpl in E'. rewrite <- Hw in E'. congruence.
  - exact Hclosed.
  - intros Htail. rewrite Hclosed. unfold process_line. simpl.
    now apply scan_no_quote.
Qed.

Lemma block_comment_quote_ignored_witness :
  process_line ("/*" +:+ " it" +:+ String "'" "s a note " +:+ nl) initial_scan
    = (EmptyString, mkScan true None false) /\
  process_line ("/*" +:+ (" it" +:+ String "'" "s a note ") +:+ "*/" +:+ " SELECT 1;" +:+ nl)
      initial_scan
    = (" SELECT 1;", initial_scan).
Proof.
  destruct (block_comment_quote_ignored "'" " it" ("s a note " +:+ nl) (" SELECT 1;" +:+ nl)
              eq_refl eq_refl) as (H1 & H2 & _).
  split; [exact H1 | exact H2].
Defined.

(** ** The Statement Assembler *)

Lemma lstrip_app_cons_truthy (p : string) (c : ascii) (r : string) :
  Py.isspace c = false -> Py.truthy (Py.lstrip (p +:+ String c r)) = true.
Proof.
  intros Hc. unfold Py.lstrip. induction p as [|x p IH]; simpl.
  - now rewrite Hc.
  - destruct (Py.isspace x); [exact IH | reflexivity].
Qed.

(** A buffer that holds a terminator is not blank. *)
Lemma buffer_with_terminator_truthy (buffer content : string) :
  Py.contains ";" content = true ->
  Py.truthy (Py.strip (buffer +:+ content +:+ " ")) = true.
Proof.
  intros H. destruct (contains_char _ _ H) as (x & y & ->).
  unfold Py.strip.
  replace (buffer +:+ (x +:+ String ";" y) +:+ " ")
    with ((buffer +:+ x) +:+ String ";" (y +:+ " "))
    by (rewrite !append_assoc; reflexivity).
  rewrite rstrip_app_cons by reflexivity.
  now apply lstrip_app_cons_truthy.
Qed.

(** C2, as the code has it.  When the cleaned line holds a [;] and the line
    ends outside a string, the statement emitted is the whole accumulated
    buffer, trimmed, with everything that follows the terminator on that
    line (nothing is emitted when the trimmed buffer starts with [--]), and
    the next buffer starts empty. *)
Theorem assemble_line_emits_whole_buffer (a : Assembler) (line : string) :
  Py.contains ";" (fst (process_line line (scan_state a))) = true ->
  in_string (snd (process_line line (scan_state a))) = None ->
  assemble_line a line =
    (if Py.startswith
          (Py.strip (current_statement a +:+ fst (process_line line (scan_state a)) +:+ " "))
          "--"
     then None
     else Some (Py.strip (current_statement a +:+ fst (process_line line (scan_state a)) +:+ " ")),
     mkAsm "" (snd (process_line line (scan_state a)))).
Proof.
  intros Hc Hs. unfold assemble_line, not_in_string, executable.
  rewrite Hc, Hs. simpl andb. cbv iota.
  rewrite (buffer_with_terminator_truthy _ _ Hc). simpl andb.
  now destruct (Py.startswith _ "--").
Qed.

Lemma assemble_line_emits_whole_buffer_witness :
  assemble_line (mkAsm "INSERT INTO t VALUES " initial_scan) ("(1); SELECT 2" +:+ nl)
  = (Some "INSERT INTO t VALUES (1); SELECT 2", initial_assembler).
Proof.
  exact (assemble_line_emits_whole_buffer
           (mkAsm "INSERT INTO t VALUES " initial_scan) ("(1); SELECT 2" +:+ nl)
           eq_refl eq_refl).
Defined.

(** C2, as it is stated, fails on a line with text after the terminator:
    the text is emitted with the statement and is not carried over. *)
Lemma assemble_line_trailing_content_cex :
  ~ Spec.cuts_at_terminator initial_assembler ("SELECT 1; SELECT 2" +:+ nl).
Proof.
  intros H. destruct (H eq_refl eq_refl) as [H1 _].
  vm_compute in H1. discriminate H1.
Qed.

(** C1, at the failing input.  The statement
    [INSERT INTO t VALUES ('a;b', 2);] written on two lines, the first one
    ending after the closed string, is emitted as two statements: the [;]
    inside the string ends the first one. *)
Theorem quoted_terminator_splits_statement :
  statements_of [ "INSERT INTO t VALUES ('a;b'," +:+ nl; "2);" +:+ nl ]
  = [ "INSERT INTO t VALUES ('a;b',"; "2);" ].
Proof. reflexivity. Qed.

(** On one line the same statement is emitted whole, and so it is when the
    line ends inside the string. *)
Lemma quoted_terminator_kept_on_one_line :
  statements_of [ "INSERT INTO t VALUES ('a;b', 2);" +:+ nl ]
    = [ "INSERT INTO t VALUES ('a;b', 2);" ] /\
  statements_of [ "INSERT INTO t VALUES ('a;" +:+ nl; "b', 2);" +:+ nl ]
    = [ "INSERT INTO t VALUES ('a; b', 2);" ].
Proof. split; reflexivity. Qed.

(** The guard of the source does hold the statement back while the line ends
    inside the string. *)
Lemma open_string_holds_statement (a : Assembler) (line : string) :
  in_string (snd (process_line line (scan_state a))) <> None ->
  fst (assemble_line a line) = None.
Proof.
  intros H. unfold assemble_line, not_in_string.
  destruct (in_string (snd (process_line line (scan_state a)))); [|congruence].
  now rewrite andb_false_r.
Qed.

(** C5, at the failing input.  The line [UPDATE t SET v = 'x;y'] opens a
    statement that goes on on the next line.  Its only [;] lies inside the
    string (the scan of the text before it ends inside the string the quote
    opened), the line ends outside any string, and the Assembler takes that
    [;] for a terminator: it emits the line as a statement. *)
Theorem terminator_matched_inside_string :
  in_string (snd (scan false None false "UPDATE t SET v = 'x")) = Some "'"%char /\
  process_line ("UPDATE t SET v = 'x;y'" +:+ nl) initial_scan
    = ("UPDATE t SET v = 'x;y'", initial_scan) /\
  assemble_line initial_assembler ("UPDATE t SET v = 'x;y'" +:+ nl)
    = (Some "UPDATE t SET v = 'x;y'", initial_assembler).
Proof. repeat split. Qed.

(** ** The Restorer *)

Section RestoreProperties.
Context {Engine : Type}.
Variable execute_sql : Engine -> string -> Engine * bool.
Variable skip_errors : bool.

(** The loop executes, under the guard, the statements the Assembler
    delimits, and leaves the Assembler's locals when it completes. *)
Lemma restore_lines_execute_each (lines : list string) (a : Assembler) (r : Run Engine) :
  let '(o, a', r') := restore_lines execute_sql skip_errors lines a r in
  (o, r') = execute_each execute_sql skip_errors (fst (loop_statements lines a)) r /\
  (o = Completed -> a' = snd (loop_statements lines a)).
Proof.
  revert a r. induction lines as [|line lines IH]; intros a r; simpl.
  - split; reflexivity.
  - destruct (assemble_line a line) as [stmt a1].
    specialize (IH a1). destruct (loop_statements lines a1) as [stmts a2].
    destruct stmt as [s|]; simpl.
    + destruct (execute_guarded execute_sql skip_errors s r) as [[|] r1].
      * apply IH.
      * split; [reflexivity | discriminate].
    + apply IH.
Qed.

(** [_restore_to_db] in terms of the statements of the dump. *)
Lemma restore_to_db_statements (lines : list string) (e : Engine) :
  restore_to_db execute_sql skip_errors lines e =
  match execute_each execute_sql skip_errors
          (fst (loop_statements lines initial_assembler)) (mkRun e 0 []) with
  | (Completed, r) =>
      match final_statement (snd (loop_statements lines initial_assembler)) with
      | s :: _ => execute_unguarded execute_sql s r
      | [] => (Completed, r)
      end
  | (Raised, r) => (Raised, r)
  end.
Proof.
  unfold restore_to_db, final_statement.
  pose proof (restore_lines_execute_each lines initial_assembler (mkRun e 0 [])) as H.
  destruct (restore_lines execute_sql skip_errors lines initial_assembler (mkRun e 0 []))
    as [[o a'] r'].
  destruct H as [H1 H2]. rewrite <- H1. destruct o; [|reflexivity].
  rewrite (H2 eq_refl). now destruct (executable _).
Qed.
End RestoreProperties.

Lemma execute_each_accept_all (stmts : list string) (r : Run unit) :
  execute_each accept_all false stmts r =
  (Completed, mkRun tt (length stmts + statements_executed r) (calls r ++ stmts)).
Proof.
  revert r. induction stmts as [|s stmts IH]; intros [[] n cs]; simpl.
  - now rewrite app_nil_r.
  - unfold execute_guarded; simpl. rewrite IH; simpl.
    now rewrite <- app_assoc, Nat.add_succ_r.
Qed.

(** The statements of a dump are those of the loop, then the one left in
    the buffer at the end of the file. *)
Lemma statements_of_loop (lines : list string) :
  statements_of lines =
  fst (loop_statements lines initial_assembler)
  ++ final_statement (snd (loop_statements lines initial_assembler)).
Proof.
  unfold statements_of. rewrite restore_to_db_statements, execute_each_accept_all.
  simpl. unfold final_statement. destruct (executable _); simpl.
  - reflexivity.
  - now rewrite app_nil_r.
Qed.



(** The batch of the table-scoped restore is one guarded block: with
    skip-errors it completes after an [Error], but the statements after the
    one that failed are not attempted. *)
Lemma execute_batch_stops_at_failure {Engine : Type}
    (get_cursor : Engine -> Engine * bool)
    (cursor_execute : Engine -> string -> Engine * ending)
    (s1 s2 s3 : string) (e e0 e1 e2 : Engine) :
  get_cursor e = (e0, true) ->
  cursor_execute e0 s1 = (e1, Returns) ->
  cursor_execute e1 s2 = (e2, RaisesError) ->
  execute_batch get_cursor cursor_execute true [s1; s2; s3] (mkRun e 0 [])
  = (Completed, mkRun e2 1 [s1; s2]).
Proof.
  intros H0 H1 H2. unfold execute_batch; simpl. rewrite H0; simpl.
  rewrite H1; simpl. now rewrite H2.
Qed.

(** ** The Analyzer *)

(** What one physical line adds to the counters and to the per-table map. *)
Lemma analyze_line_effect (st : Stats) (line : string) :
  create_table (analyze_line st line) = create_table st + bump (create_table_line line) /\
  insert (analyze_line st line) = insert st + bump (insert_line line) /\
  tables (analyze_line st line) =
    if create_table_line line || insert_line line
    then count_table (extract_table_name line) (tables st) else tables st.
Proof.
  unfold analyze_line, process_line_for_analysis, create_table_line, insert_line, counted.
  destruct (Py.truthy (Py.strip (Py.upper line))); simpl;
    [|repeat split; lia].
  destruct (Py.startswith (Py.strip (Py.upper line)) "--"); simpl;
    [repeat split; lia|].
  destruct (Py.contains "CREATE TABLE" (Py.strip (Py.upper line))); simpl;
    [repeat split; lia|].
  destruct (Py.contains "INSERT INTO" (Py.strip (Py.upper line))); simpl;
    [repeat split; lia|].
  destruct (Py.contains "ALTER TABLE" (Py.strip (Py.upper line))); simpl;
    [repeat split; lia|].
  destruct (Py.contains "DROP TABLE" (Py.strip (Py.upper line))); simpl;
    repeat split; lia.
Qed.

Lemma dom_count_table (name : option string) (m : gmap string nat) :
  dom (count_table name m) = list_to_set (option_list name) ∪ dom m.
Proof.
  destruct name as [n|]; simpl.
  - rewrite dom_insert_L. set_solver.
  - set_solver.
Qed.

Lemma analyze_lines_from (lines : list string) (st : Stats) :
  create_table (foldl analyze_line st lines)
    = create_table st + length (List.filter create_table_line lines) /\
  insert (foldl analyze_line st lines)
    = insert st + length (List.filter insert_line lines) /\
  dom (tables (foldl analyze_line st lines))
    = list_to_set (omap extract_table_name
        (List.filter (fun l => create_table_line l || insert_line l) lines))
      ∪ dom (tables st).
Proof.
  revert st. induction lines as [|line lines IH]; intros st; simpl.
  - repeat split; [lia | lia | set_solver].
  - destruct (IH (analyze_line st line)) as (H1 & H2 & H3).
    destruct (analyze_line_effect st line) as (E1 & E2 & E3).
    rewrite H1, H2, H3, E1, E2, E3. clear.
    destruct (create_table_line line), (insert_line line); simpl;
      (split; [lia | split; [lia|]]);
      rewrite ?dom_count_table;
      destruct (extract_table_name line); simpl; set_solver.
Qed.



Lemma filter_fixture_lines (p : string -> bool) (f : fixture) :
  (forall l, p l = true -> keyword_line l = true) ->
  plain_continuations f ->
  List.filter p (fixture_lines f) = map fst (List.filter (fun s => p (fst s)) f).
Proof.
  intros Hp Hf. unfold fixture_lines.
  induction Hf as [|[first rest] f Hrest Hf IH]; [reflexivity|]. simpl in *.
  rewrite List.filter_app, IH.
  assert (List.filter p rest = []) as ->.
  { clear -Hp Hrest. induction Hrest as [|l rest Hl Hrest IH]; [reflexivity|].
    simpl. destruct (p l) eqn:E; [|exact IH].
    apply Hp in E. congruence. }
  now destruct (p first).
Qed.

(** For a fixture whose statements have their keywords and table name on
    their first line, continued by lines without CREATE TABLE or INSERT INTO,
    the counters are the numbers of CREATE TABLE and of INSERT INTO
    statements and the keys are their table names. *)
Lemma analyze_dump_fixture (f : fixture) :
  plain_continuations f ->
  create_table (analyze_dump (fixture_lines f))
    = length (List.filter (fun s => create_table_line (fst s)) f) /\
  insert (analyze_dump (fixture_lines f))
    = length (List.filter (fun s => insert_line (fst s)) f) /\
  dom (tables (analyze_dump (fixture_lines f)))
    = list_to_set (omap (fun s => extract_table_name (fst s))
        (List.filter (fun s => keyword_line (fst s)) f)).
Proof.
  intros Hf. unfold analyze_dump.
  destruct (analyze_lines_from (fixture_lines f) initial_stats) as (H1 & H2 & H3).
  simpl in H1, H2, H3. rewrite dom_empty_L, (right_id_L ∅ (∪)) in H3.
  rewrite H1, H2, H3.
  rewrite (filter_fixture_lines create_table_line), length_map;
    [| unfold keyword_line; intros l ->; reflexivity | assumption].
  rewrite (filter_fixture_lines insert_line), length_map;
    [| unfold keyword_line; intros l ->; apply orb_true_r | assumption].
  change (fun l => create_table_line l || insert_line l) with keyword_line.
  rewrite (filter_fixture_lines keyword_line) by auto.
  repeat split. f_equal.
  generalize (List.filter (fun s => keyword_line (fst s)) f). intros l.
  induction l as [|s l IH]; [reflexivity|].
  simpl. destruct (extract_table_name (fst s)); [f_equal|]; exact IH.
Qed.

(** A line with INSERT IGNORE INTO is not an INSERT INTO line for the
    Analyzer: it is counted with the other statements. *)
Lemma analyze_insert_ignore :
  let st := analyze_dump [ "INSERT IGNORE INTO orders VALUES (1);" +:+ nl ] in
  insert st = 0 /\ other st = 1 /\ tables st = ∅.
Proof. repeat split. Qed.

(** ** The Validator *)

Lemma elem_of_add_table (name : option string) (s : gset string) (t : string) :
  t ∈ add_table name s <-> name = Some t \/ t ∈ s.
Proof.
  destruct name as [n|]; simpl; [|naive_solver].
  rewrite elem_of_union, elem_of_singleton. naive_solver.
Qed.

Lemma validate_line_effect (v : Validation) (line t : string) :
  (t ∈ tables_created (validate_line v line) <-> t ∈ tables_created v \/ declares t line) /\
  (t ∈ tables_referenced (validate_line v line)
     <-> t ∈ tables_referenced v \/ refers_to t line).
Proof.
  unfold validate_line, declares, refers_to.
  destruct (Py.contains "CREATE TABLE" (Py.upper line)); simpl.
  - rewrite elem_of_add_table. naive_solver.
  - destruct (Py.contains "INSERT INTO" (Py.upper line)); simpl.
    + rewrite elem_of_add_table. naive_solver.
    + naive_solver.
Qed.

Lemma scan_tables_from (lines : list string) (v : Validation) (t : string) :
  (t ∈ tables_created (foldl validate_line v lines)
     <-> t ∈ tables_created v \/ exists line, In line lines /\ declares t line) /\
  (t ∈ tables_referenced (foldl validate_line v lines)
     <-> t ∈ tables_referenced v \/ exists line, In line lines /\ refers_to t line).
Proof.
  revert v. induction lines as [|line lines IH]; intros v; simpl.
  - naive_solver.
  - destruct (IH (validate_line v line)) as [H1 H2].
    destruct (validate_line_effect v line t) as [E1 E2].
    rewrite H1, H2, E1, E2. naive_solver.
Qed.

Lemma missing_message_inj : Inj (=) (=) missing_message.
Proof. intros a b H. unfold missing_message in H. now apply (inj _) in H. Qed.



(** A comment line counts for the Validator: a dump without any statement
    gets an issue. *)
Lemma validate_comment_line :
  statements_of [ "-- INSERT INTO ghost VALUES (1);" +:+ nl ] = [] /\
  validate_dump [ "-- INSERT INTO ghost VALUES (1);" +:+ nl ] = [missing_message "ghost"].
Proof. split; vm_compute; reflexivity. Qed.

(** A line with INSERT IGNORE INTO is not a reference for the Validator. *)
Lemma validate_insert_ignore :
  validate_dump [ "INSERT IGNORE INTO orders VALUES (1);" +:+ nl ] = [].
Proof. reflexivity. Qed.

(** With a single table referenced and not declared, there is one issue. *)
Lemma validate_dump_single_missing (lines : list string) (t : string) :
  (forall table,
     (exists line, In line lines /\ refers_to table line) /\
     ~ (exists line, In line lines /\ declares table line) <-> table = t) ->
  validate_dump lines = [missing_message t].
Proof.
  intros H. unfold validate_dump.
  assert (tables_referenced (scan_tables lines) ∖ tables_created (scan_tables lines) = {[t]})
    as ->; [|now rewrite elements_singleton].
  apply set_eq. intros x. rewrite elem_of_singleton, <- H, elem_of_difference.
  unfold scan_tables.
  destruct (scan_tables_from lines (mkValidation ∅ ∅) x) as [H1 H2].
  rewrite H1, H2. set_solver.
Qed.

(** ** The Extractor *)

Lemma parse_values_in_quotes (body rest : string) (values : list string) (current : string) :
  plain body = true ->
  parse_values_loop (body +:+ rest) values current true false
  = parse_values_loop rest values (current +:+ body) true false.
Proof.
  revert current. induction body as [|c body IH]; intros current H; simpl.
  - now rewrite append_empty_r.
  - simpl in H. apply andb_true_iff in H as [H H3]. apply andb_true_iff in H as [H1 H2].
    apply negb_true_iff in H1, H2. rewrite H1, H2.
    rewrite andb_false_r, IH by assumption. unfold push. now rewrite append_assoc.
Qed.

(** A quoted text goes into the current value whole, commas included, and
    without its quotes. *)
Lemma parse_values_quoted_text (q q' : ascii) (body rest : string)
    (values : list string) (current : string) :
  is_value_quote q = true -> is_value_quote q' = true -> plain body = true ->
  parse_values_loop (String q (body +:+ String q' rest)) values current false false
  = parse_values_loop rest values (current +:+ body) false false.
Proof.
  intros Hq Hq' Hb.
  assert (Hb1 : forall c, is_value_quote c = true -> Ascii.eqb c "\" = false).
  { intros c H. unfold is_value_quote in H. apply orb_true_iff in H as [H|H];
      apply Ascii.eqb_eq in H; subst; reflexivity. }
  simpl. rewrite (Hb1 _ Hq), Hq. simpl.
  rewrite parse_values_in_quotes by assumption.
  simpl. now rewrite (Hb1 _ Hq'), Hq'.
Qed.

(** C4, as the code has it.  On the statement
    [INSERT INTO t (a,b) VALUES (1,'x,y'), (2,'z')] the pattern captures the
    column list and the whole VALUES clause; [parse_values] reads the clause
    as one flat list, in which the comma inside ['x,y'] does not separate but
    the parentheses stay and the two tuples are not told apart; with four
    values for two columns the statement is dropped: the header is written
    and no row, with or without the closing [;] and line end. *)
Theorem extract_flattens_values_clause :
  insert_matches "t" "INSERT INTO t (a,b) VALUES (1,'x,y'), (2,'z')"
    = [("a,b", "(1,'x,y'), (2,'z')")] /\
  parse_values "(1,'x,y'), (2,'z')" = ["(1"; "x,y)"; "(2"; "z)"] /\
  extract_table_data ["INSERT INTO t (a,b) VALUES (1,'x,y'), (2,'z')"] "t"
    = mkExtraction (Some ["a"; "b"]) [] 0 /\
  extract_table_data ["INSERT INTO t (a,b) VALUES (1,'x,y'), (2,'z');" +:+ nl] "t"
    = mkExtraction (Some ["a"; "b"]) [] 0.
Proof. repeat split; vm_compute; reflexivity. Qed.

(** C4, as it is stated, fails: the two rows are not produced. *)
Lemma extract_two_tuples_cex :
  rows (extract_table_data ["INSERT INTO t (a,b) VALUES (1,'x,y'), (2,'z')"] "t")
  <> Spec.two_rows.
Proof.
  intros H. apply (f_equal (@length _)) in H. vm_compute in H. discriminate H.
Qed.

(** A single tuple is not unwrapped either: its parentheses end up in the
    first and, without a closing [;], in the last value. *)
Lemma extract_single_tuple :
  map map_to_list
    (rows (extract_table_data ["INSERT INTO t (a,b) VALUES (1,'x,y');" +:+ nl] "t"))
  = [[("a", "(1"); ("b", "x,y")]].
Proof. vm_compute. reflexivity. Qed.

(** ** Text files *)

Lemma join_app (l1 l2 : list string) : Py.join (l1 ++ l2) = Py.join l1 +:+ Py.join l2.
Proof.
  unfold Py.join. induction l1 as [|x l1 IH]; simpl; [reflexivity|].
  now rewrite IH, append_assoc.
Qed.


Lemma readlines_nonempty (text : string) : text <> "" -> readlines text <> [].
Proof.
  destruct text as [|c text]; [congruence|]. intros _. simpl.
  destruct (Ascii.eqb c LF); [discriminate|].
  destruct (readlines text); discriminate.
Qed.

Lemma contains1_cons (c x : ascii) (s : string) :
  Py.contains (String c "") (String x s) = Ascii.eqb x c || Py.contains (String c "") s.
Proof.
  rewrite contains_cons. simpl. rewrite prefix_empty.
  destruct (ascii_dec c x) as [->|n].
  - now rewrite Ascii.eqb_refl.
  - assert (Ascii.eqb x c = false) as -> by (apply Ascii.eqb_neq; congruence).
    reflexivity.
Qed.


(** ** The Splitter *)

Lemma parse_decimal_zeros (k : nat) (s : string) :
  parse_decimal (zeros k +:+ s) = parse_decimal s.
Proof.
  unfold parse_decimal. induction k as [|k IH]; [reflexivity|]. simpl.
  rewrite <- IH. now destruct (NilEmpty.uint_of_string (zeros k +:+ s)).
Qed.

Lemma parse_format_04d (n : nat) : parse_decimal (format_04d n) = Some n.
Proof.
  unfold format_04d. rewrite parse_decimal_zeros. unfold parse_decimal.
  rewrite NilEmpty.usu. simpl. now rewrite DecimalNat.Unsigned.of_to.
Qed.

Lemma append_inj_r (a b c : string) : a +:+ c = b +:+ c -> a = b.
Proof.
  revert b. induction a as [|x a IH]; intros [|y b] H; simpl in H.
  - reflexivity.
  - apply (f_equal String.length) in H. simpl in H. rewrite length_append in H. lia.
  - apply (f_equal String.length) in H. simpl in H. rewrite length_append in H. lia.
  - injection H as -> H. f_equal. now apply IH.
Qed.

(** Two parts never share a file. *)
Lemma part_path_inj (dir : string) (i j : nat) :
  part_path dir i = part_path dir j -> i = j.
Proof.
  unfold part_path. intros H. apply (inj _) in H. apply (inj _) in H.
  apply append_inj_r in H. apply (f_equal parse_decimal) in H.
  rewrite !parse_format_04d in H. congruence.
Qed.

Lemma parts_insert_later (dir : string) (k : nat)
    (fs : gmap string string) (j : nat) (text : string) :
  k < j ->
  map (fun i => default "" (<[part_path dir j := text]> fs !! part_path dir i)) (List.seq 1 k)
  = map (fun i => default "" (fs !! part_path dir i)) (List.seq 1 k).
Proof.
  intros Hk. apply map_ext_in. intros i Hi. apply in_seq in Hi.
  rewrite lookup_insert_ne; [reflexivity|].
  intros E. apply part_path_inj in E. lia.
Qed.

(** One line more: the Splitter does not fail, and the parts, put together,
    are longer by that line. *)
Lemma split_line_appends (args : Args) (st : Split) (line : string) :
  lines_per_file args <> 0%Z ->
  split_invariant (output_dir_of args) st ->
  exists st',
    split_line args st line = (Completed, st') /\
    split_invariant (output_dir_of args) st' /\
    Py.join (parts (output_dir_of args) st')
      = Py.join (parts (output_dir_of args) st) +:+ line.
Proof.
  intros Hn Hinv. unfold split_line.
  destruct (Z.eqb_spec (lines_per_file args) 0) as [E|_]; [contradiction|].
  destruct st as [k n cur fs]; simpl.
  destruct (Z.eqb_spec (Z.of_nat n mod lines_per_file args) 0) as [Hm|Hm]; simpl.
  - eexists. split; [reflexivity|]. split.
    + right. simpl. split; [lia | reflexivity].
    + unfold parts. simpl file_count. simpl split_fs.
      rewrite seq_S, map_app, join_app. simpl.
      rewrite !lookup_insert_eq. simpl.
      rewrite (parts_insert_later _ k) by lia.
      rewrite (parts_insert_later _ k) by lia.
      unfold Py.join at 2. simpl. now rewrite append_empty_r.
  - destruct Hinv as [H0|[Hk Hcur]]; simpl in *.
    + subst n. now rewrite Z.mod_0_l in Hm.
    + rewrite Hcur. eexists. split; [reflexivity|]. split.
      * right. simpl. split; [lia | reflexivity].
      * unfold parts. simpl file_count. simpl split_fs.
        destruct k as [|k]; [lia|].
        rewrite seq_S, !map_app, !join_app. simpl.
        rewrite !lookup_insert_eq.
        rewrite (parts_insert_later _ k) by lia.
        simpl. now rewrite !append_empty_r, append_assoc.
Qed.


Lemma parts_needed_step (a n : Z) :
  (0 < a)%Z -> (0 <= n)%Z ->
  parts_needed (n + 1) a
  = (parts_needed n a + (if Z.eqb (n mod a) 0 then 1 else 0))%Z.
Proof.
  intros Ha Hn. unfold parts_needed.
  pose proof (Z.div_mod n a ltac:(lia)) as Hdm.
  pose proof (Z.mod_pos_bound n a Ha) as Hb.
  set (q := (n / a)%Z) in *. set (r := (n mod a)%Z) in *.
  destruct (Z.eqb_spec r 0) as [Hr|Hr].
  - rewrite <- (Zdiv_unique (n + 1 + a - 1) a (q + 1) 0) by lia.
    rewrite <- (Zdiv_unique (n + a - 1) a q (a - 1)) by lia. lia.
  - rewrite <- (Zdiv_unique (n + 1 + a - 1) a (q + 1) r) by lia.
    rewrite <- (Zdiv_unique (n + a - 1) a (q + 1) (r - 1)) by lia. lia.
Qed.

Lemma mod_abs_zero (n b : Z) :
  b <> 0%Z -> Z.eqb (n mod b) 0 = Z.eqb (n mod Z.abs b) 0.
Proof.
  intros Hb.
  destruct (Z.eqb_spec (n mod b) 0) as [H|H];
    destruct (Z.eqb_spec (n mod Z.abs b) 0) as [H'|H']; try reflexivity; exfalso.
  - apply H'. apply Z.mod_divide in H; [|exact Hb].
    apply Z.mod_divide; [lia|]. exact (proj2 (Z.divide_abs_l b n) H).
  - apply H. apply Z.mod_divide in H'; [|lia].
    apply Z.mod_divide; [exact Hb|]. exact (proj1 (Z.divide_abs_l b n) H').
Qed.

Lemma split_line_counts (args : Args) (st st' : Split) (line : string) :
  split_line args st line = (Completed, st') ->
  Z.of_nat (file_count st')
    = (Z.of_nat (file_count st)
       + (if Z.eqb (Z.of_nat (split_line_count st) mod lines_per_file args) 0
          then 1 else 0))%Z /\
  split_line_count st' = S (split_line_count st).
Proof.
  unfold split_line. destruct (Z.eqb (lines_per_file args) 0); [discriminate|].
  destruct (Z.eqb (Z.of_nat (split_line_count st) mod lines_per_file args) 0); simpl.
  - intros [= <-]. simpl. split; lia.
  - destruct (current_file st); [|discriminate]. intros [= <-]. simpl. split; lia.
Qed.

Lemma split_lines_counts (args : Args) (lines : list string) (st : Split) :
  lines_per_file args <> 0%Z ->
  split_invariant (output_dir_of args) st ->
  Z.of_nat (file_count st)
    = parts_needed (Z.of_nat (split_line_count st)) (Z.abs (lines_per_file args)) ->
  exists st',
    split_lines args st lines = (Completed, st') /\
    Z.of_nat (file_count st')
      = parts_needed (Z.of_nat (split_line_count st + length lines))
                     (Z.abs (lines_per_file args)) /\
    split_line_count st' = split_line_count st + length lines.
Proof.
  intros Hn. revert st. induction lines as [|line lines IH]; intros st Hinv Hk; simpl.
  - exists st. rewrite Nat.add_0_r. auto.
  - destruct (split_line_appends args st line Hn Hinv) as (st1 & E & Hinv1 & _).
    rewrite E. destruct (split_line_counts args st st1 line E) as [C1 C2].
    destruct (IH st1 Hinv1) as (st2 & E2 & K & L).
    + rewrite C1, C2, Hk, (mod_abs_zero _ _ Hn).
      rewrite Nat2Z.inj_succ, <- Z.add_1_r. symmetry.
      apply parts_needed_step; lia.
    + exists st2. split; [exact E2|]. rewrite K, L, C2.
      split; [f_equal; f_equal; lia | lia].
Qed.



(** ** The modes on the file system *)

Lemma cleanup_lookup_ne (args : Args) (file_path p : string) (fs : gmap string string) :
  p <> file_path -> cleanup_temp_file args file_path fs !! p = fs !! p.
Proof.
  intros Hp. unfold cleanup_temp_file.
  destruct (_ && _); [now apply lookup_delete_ne | reflexivity].
Qed.

Lemma cleanup_same (args : Args) (fs : gmap string string) :
  cleanup_temp_file args (file args) fs = fs.
Proof. unfold cleanup_temp_file. now rewrite String.eqb_refl. Qed.




Lemma split_lines_zero (args : Args) (st : Split) (lines : list string) :
  lines_per_file args = 0%Z -> lines <> [] ->
  split_lines args st lines = (Raised, st).
Proof.
  intros H0 Hl. destruct lines as [|line lines]; [congruence|].
  simpl. unfold split_line. now rewrite H0.
Qed.

Lemma split_lines_keeps_files (args : Args) (lines : list string) (st : Split) (path : string) :
  is_Some (split_fs st !! path) ->
  is_Some (split_fs (snd (split_lines args st lines)) !! path).
Proof.
  revert st. induction lines as [|line lines IH]; intros st H; [exact H|].
  simpl. assert (H1 : is_Some (split_fs (snd (split_line args st line)) !! path)).
  { unfold split_line. destruct (Z.eqb (lines_per_file args) 0); [exact H|].
    destruct (Z.eqb _ 0); simpl.
    - rewrite !lookup_insert. repeat case_decide; eauto.
    - destruct (current_file st); simpl; [|exact H].
      rewrite lookup_insert. case_decide; eauto. }
  destruct (split_line args st line) as [[|] st1]; simpl in *; [|exact H1].
  now apply IH.
Qed.

Lemma open_write_dom (path : string) (fs fs1 : gmap string string) (text : string) :
  open_write path fs = Some fs1 -> dom fs ⊆ dom (<[path := text]> fs).
Proof. intros _. rewrite dom_insert. set_solver. Qed.

Section RunProperties.
Variable gunzip : string -> option string.
Variable chunk : positive.
Variable csv_text : list string -> list (gmap string string) -> string.
Variable extract_over_input : string -> string -> string.
Variable report_text : string.
Context {Engine : Type}.
Variable database_exists : Engine -> Engine * option bool.
Variable create_the_database : Engine -> Engine * bool.
Variable execute_sql : Engine -> string -> Engine * bool.

#[local] Abbreviation the_run :=
  (run gunzip chunk csv_text extract_over_input report_text
       database_exists create_the_database execute_sql).


(** C10, at the failing input.  A run in split mode on a compressed dump
    that is not empty, with 0 lines per file: the division by zero (or,
    before it, an output directory that cannot be made) ends the run with
    exit status 1, and the decompressed file is still there, with the text of
    the dump. *)
Theorem run_error_leaves_temp_file (args : Args) (fs : gmap string string)
    (e : Engine) (gz text : string) :
  Py.endswith (file args) ".gz" = true ->
  decompressed_path args <> "" ->
  fs !! file args = Some gz ->
  gunzip gz = Some text ->
  text <> "" ->
  lines_per_file args = 0%Z ->
  (the_run SplitMode args fs e).1.1 = 1 /\
  (the_run SplitMode args fs e).1.2 !! decompressed_path args = Some text.
Proof.
  intros Hgz Hdp Hfile Hgunzip Htext H0.
  unfold run, validate_args, file_at. rewrite Hfile.
  rewrite bool_decide_eq_true_2 by eauto. simpl.
  unfold split_dump, decompress_if_needed. rewrite Hgz, Hfile, Hgunzip.
  assert (Py.truthy (decompressed_path args) = true) as ->
    by (destruct (decompressed_path args); [congruence | reflexivity]).
  destruct (makedirs (output_dir_of args) _); simpl;
    [|split; [reflexivity | apply lookup_insert_eq]].
  rewrite lookup_insert_eq.
  assert (Hl : read_text text <> []).
  { unfold read_text. apply readlines_nonempty.
    destruct text as [|c text']; [congruence|]. simpl.
    destruct (Ascii.eqb c CR); discriminate. }
  assert (opens_at args (decompressed_path args)
            (mkSplit 0 0 None (<[decompressed_path args := text]> fs))
            (read_text text) 0 = None) as ->.
  { destruct (read_text text) as [|l ls]; [reflexivity|]. simpl.
    unfold split_line. now rewrite H0. }
  simpl lines_read. rewrite split_lines_zero by assumption.
  simpl. split; [reflexivity | apply lookup_insert_eq].
Qed.

(** Decompression only adds a file. *)
Lemma decompress_dom (args : Args) (fs : gmap string string) :
  dom fs ⊆ dom (decompress_if_needed gunzip args fs).1.2.
Proof.
  unfold decompress_if_needed.
  destruct (Py.endswith (file args) ".gz"); [|reflexivity].
  destruct (fs !! file args); [|reflexivity].
  destruct (Py.truthy (decompressed_path args)); [|reflexivity].
  destruct (gunzip s); simpl; rewrite dom_insert; set_solver.
Qed.

Lemma decompress_path (args : Args) (fs : gmap string string) :
  (decompress_if_needed gunzip args fs).2
  = if Py.endswith (file args) ".gz" then decompressed_path args else file args.
Proof.
  unfold decompress_if_needed.
  destruct (Py.endswith (file args) ".gz"); [|reflexivity].
  destruct (fs !! file args); [|reflexivity].
  destruct (Py.truthy (decompressed_path args)); [|reflexivity].
  now destruct (gunzip s).
Qed.

(** What is common to the modes: files are added or overwritten, and on
    completion the file that was read is cleaned up. *)
Lemma read_only_mode_staged (args : Args) (fs : gmap string string) :
  exists fs2,
    dom fs ⊆ dom fs2 /\
    (read_only_mode gunzip args fs).2
    = match (read_only_mode gunzip args fs).1 with
      | Completed =>
          cleanup_temp_file args (decompress_if_needed gunzip args fs).2 fs2
      | Raised => fs2
      end.
Proof.
  unfold read_only_mode. pose proof (decompress_dom args fs) as Hd.
  destruct (decompress_if_needed gunzip args fs) as [[[|] fs1] file_path]; simpl in *.
  - destruct (fs1 !! file_path); exists fs1; auto.
  - exists fs1; auto.
Qed.

Lemma extract_to_file_dom (file_path table_name output_file : string)
    (fs : gmap string string) :
  dom fs ⊆ dom (extract_to_file csv_text extract_over_input
                  file_path table_name output_file fs).2.
Proof.
  unfold extract_to_file. destruct (fs !! file_path); [|reflexivity].
  destruct (opens_output_at _ _ _ _); [|reflexivity].
  destruct (open_write output_file fs); [|reflexivity].
  simpl. rewrite dom_insert. set_solver.
Qed.

Lemma extract_data_staged (args : Args) (fs : gmap string string) :
  exists fs2,
    dom fs ⊆ dom fs2 /\
    (extract_data gunzip csv_text extract_over_input args fs).2
    = match (extract_data gunzip csv_text extract_over_input args fs).1 with
      | Completed =>
          cleanup_temp_file args (decompress_if_needed gunzip args fs).2 fs2
      | Raised => fs2
      end.
Proof.
  unfold extract_data. pose proof (decompress_dom args fs) as Hd.
  destruct (table args) as [t|]; [|exists fs; auto].
  destruct (Py.truthy t); [|exists fs; auto].
  destruct (decompress_if_needed gunzip args fs) as [[[|] fs1] file_path]; simpl in *.
  - pose proof (extract_to_file_dom file_path t (output_file_of args t) fs1) as He.
    destruct (extract_to_file _ _ _ _ _ fs1) as [[|] fs2]; simpl in *;
      exists fs2; split; auto; set_solver.
  - exists fs1; auto.
Qed.

Lemma split_dump_staged (args : Args) (fs : gmap string string) :
  exists fs2,
    dom fs ⊆ dom fs2 /\
    (split_dump gunzip chunk args fs).2
    = match (split_dump gunzip chunk args fs).1 with
      | Completed =>
          cleanup_temp_file args (decompress_if_needed gunzip args fs).2 fs2
      | Raised => fs2
      end.
Proof.
  unfold split_dump. pose proof (decompress_dom args fs) as Hd.
  destruct (decompress_if_needed gunzip args fs) as [[[|] fs1] file_path]; simpl in *;
    [|exists fs1; auto].
  destruct (makedirs (output_dir_of args) fs1); [|exists fs1; auto].
  destruct (fs1 !! file_path) as [bytes|]; [|exists fs1; auto].
  set (lines := lines_read chunk _ bytes).
  assert (Hk : dom fs1 ⊆ dom (split_fs (split_lines args (mkSplit 0 0 None fs1) lines).2)).
  { intros p Hp. apply elem_of_dom. apply split_lines_keeps_files.
    simpl. now apply elem_of_dom. }
  destruct (split_lines args (mkSplit 0 0 None fs1) lines) as [[|] st]; simpl in *;
    exists (split_fs st); split; auto; set_solver.
Qed.

Lemma restore_dump_staged (args : Args) (fs : gmap string string) (e : Engine) :
  exists fs2,
    dom fs ⊆ dom fs2 /\
    (restore_dump gunzip database_exists create_the_database execute_sql args fs e).1.2
    = match (restore_dump gunzip database_exists create_the_database execute_sql
               args fs e).1.1 with
      | Completed =>
          cleanup_temp_file args (decompress_if_needed gunzip args fs).2 fs2
      | Raised => fs2
      end.
Proof.
  unfold restore_dump. pose proof (decompress_dom args fs) as Hd.
  destruct (decompress_if_needed gunzip args fs) as [[[|] fs1] file_path]; simpl in *;
    [|exists fs1; auto].
  destruct (ensure_database _ _ args e) as [[|] e1]; [|exists fs1; auto].
  destruct (fs1 !! file_path) as [bytes|]; [|exists fs1; auto].
  destruct (restore_to_db execute_sql (skip_errors args) (read_text bytes) e1)
    as [[|] r]; exists fs1; auto.
Qed.

(** The outcome of the mode of a run and the file system it leaves,
    before the report. *)
Lemma mode_staged (m : mode) (args : Args) (fs : gmap string string) (e : Engine) :
  exists fs2,
    dom fs ⊆ dom fs2 /\
    (match m with
     | Analyze | Validate => (read_only_mode gunzip args fs, mkRun e 0 [])
     | ExtractMode =>
         (extract_data gunzip csv_text extract_over_input args fs, mkRun e 0 [])
     | SplitMode => (split_dump gunzip chunk args fs, mkRun e 0 [])
     | RestoreMode =>
         restore_dump gunzip database_exists create_the_database execute_sql args fs e
     end).1.2
    = match (match m with
             | Analyze | Validate => (read_only_mode gunzip args fs, mkRun e 0 [])
             | ExtractMode =>
                 (extract_data gunzip csv_text extract_over_input args fs, mkRun e 0 [])
             | SplitMode => (split_dump gunzip chunk args fs, mkRun e 0 [])
             | RestoreMode =>
                 restore_dump gunzip database_exists create_the_database execute_sql
                   args fs e
             end).1.1 with
      | Completed =>
          cleanup_temp_file args (decompress_if_needed gunzip args fs).2 fs2
      | Raised => fs2
      end.
Proof.
  destruct m; simpl.
  - apply read_only_mode_staged.
  - apply extract_data_staged.
  - apply read_only_mode_staged.
  - apply split_dump_staged.
  - apply restore_dump_staged.
Qed.

Lemma generate_report_dom (args : Args) (fs : gmap string string) :
  dom fs ⊆ dom (generate_report report_text args fs).2.
Proof.
  unfold generate_report. destruct (given (report args)); [|reflexivity].
  destruct (open_write _ fs); [|reflexivity].
  simpl. rewrite dom_insert. set_solver.
Qed.

Lemma generate_report_lookup (args : Args) (fs : gmap string string) (p : string) :
  report args <> Some p ->
  (generate_report report_text args fs).2 !! p = fs !! p.
Proof.
  intros Hp. unfold generate_report.
  destruct (report args) as [path|]; [|reflexivity]. simpl.
  destruct (Py.truthy path); [|reflexivity].
  destruct (open_write path fs); [|reflexivity].
  simpl. apply lookup_insert_ne. congruence.
Qed.

(** A run never deletes a file, the decompressed one apart. *)
Lemma run_keeps_files (m : mode) (args : Args) (fs : gmap string string)
    (e : Engine) (p : string) :
  Py.endswith (file args) ".gz" = false \/ p <> decompressed_path args ->
  is_Some (fs !! p) ->
  is_Some ((the_run m args fs e).1.2 !! p).
Proof.
  intros Hp Hin. unfold run.
  destruct (validate_args m args _ _); [|exact Hin].
  destruct (mode_staged m args fs e) as (fs2 & Hdom & Hres).
  rewrite decompress_path in Hres.
  set (res := match m with
              | Analyze | Validate => _ | ExtractMode => _ | SplitMode => _
              | RestoreMode => _ end) in *.
  assert (Hm : is_Some (res.1.2 !! p)).
  { rewrite Hres. assert (H2 : is_Some (fs2 !! p)).
    { apply elem_of_dom, Hdom, elem_of_dom, Hin. }
    destruct res.1.1; [|exact H2].
    destruct (Py.endswith (file args) ".gz") eqn:Hgz.
    - destruct Hp as [Hp|Hp]; [discriminate|]. now rewrite cleanup_lookup_ne.
    - now rewrite cleanup_same. }
  destruct res as [[o fs1] r]. simpl in *. destruct o; [|exact Hm].
  pose proof (generate_report_dom args fs1) as Hr.
  destruct (generate_report report_text args fs1) as [[|] fs3]; simpl in *;
    apply elem_of_dom, Hr, elem_of_dom, Hm.
Qed.


(** A run on a dump that is not compressed never deletes it. *)
Lemma run_keeps_plain_input (m : mode) (args : Args) (fs : gmap string string)
    (e : Engine) :
  Py.endswith (file args) ".gz" = false ->
  is_Some (fs !! file args) ->
  is_Some ((the_run m args fs e).1.2 !! file args).
Proof. intros Hgz. apply run_keeps_files. now left. Qed.
End RunProperties.



Lemma run_error_leaves_temp_file_witness :
  (run (fun _ => Some ("SELECT 1;" +:+ nl)) 8192 (fun _ _ => "") (fun _ _ => "") ""
       (fun e : unit => (e, Some true)) (fun e => (e, true)) accept_all
       SplitMode (basic_args "dump.sql.gz" None 0)
       {[ "dump.sql.gz" := "(compressed)" ]} tt).1.1 = 1 /\
  (run (fun _ => Some ("SELECT 1;" +:+ nl)) 8192 (fun _ _ => "") (fun _ _ => "") ""
       (fun e : unit => (e, Some true)) (fun e => (e, true)) accept_all
       SplitMode (basic_args "dump.sql.gz" None 0)
       {[ "dump.sql.gz" := "(compressed)" ]} tt).1.2 !! "dump.sql"
  = Some ("SELECT 1;" +:+ nl).
Proof.
  apply (run_error_leaves_temp_file (fun _ => Some ("SELECT 1;" +:+ nl)) 8192
           (fun _ _ => "") (fun _ _ => "") ""
           (fun e : unit => (e, Some true)) (fun e => (e, true)) accept_all
           (basic_args "dump.sql.gz" None 0) {[ "dump.sql.gz" := "(compressed)" ]} tt
           "(compressed)" ("SELECT 1;" +:+ nl)).
  - reflexivity.
  - discriminate.
  - reflexivity.
  - reflexivity.
  - discriminate.
  - reflexivity.
Defined.

(** * Further properties of the code *)

(** ** The Scanner, line after line *)

Lemma scan_lines_reachable (lines : list string) : reachable (scan_lines lines).
Proof.
  unfold scan_lines.
  assert (H : forall st, reachable st ->
            reachable (foldl (fun st line => snd (process_line line st)) st lines)).
  { induction lines as [|line lines IH]; intros st Hst; simpl; [exact Hst|].
    apply IH. now constructor. }
  apply H. constructor.
Qed.

(** X1. Whatever the lines of a file, the Scanner's flags after them are
    consistent: never inside a string and inside a block comment at once,
    and an escape is pending only inside a string. *)
Theorem scan_lines_flags_consistent (lines : list string) :
  ~ (in_string (scan_lines lines) <> None /\
     in_multiline_comment (scan_lines lines) = true) /\
  (escape_next (scan_lines lines) = true -> in_string (scan_lines lines) <> None).
Proof.
  destruct (reachable_exclusive _ (scan_lines_reachable lines)) as [[_ He] Hn].
  split; assumption.
Qed.

Lemma subsequence_empty (s : string) : subsequence "" s.
Proof. induction s; constructor; assumption. Qed.

Lemma subsequence_refl (s : string) : subsequence s s.
Proof. induction s; constructor; assumption. Qed.

Lemma subsequence_app_r (a b w : string) :
  subsequence a b -> subsequence a (b +:+ w).
Proof.
  induction 1; simpl.
  - apply subsequence_empty.
  - now constructor.
  - now constructor.
Qed.

Lemma subsequence_length (a b : string) :
  subsequence a b -> String.length a <= String.length b.
Proof. induction 1; simpl; lia. Qed.

Lemma scan_subsequence (line : string) :
  forall ic ins esc, subsequence (fst (scan ic ins esc line)) line.
Proof.
  induction line as [line IH] using string_length_ind.
  intros ic ins esc. destruct line as [|char rest]; [constructor|].
  assert (IH1 : forall ic ins esc, subsequence (fst (scan ic ins esc rest)) rest).
  { intros. apply IH. simpl. lia. }
  assert (IH2 : forall ic ins esc,
            subsequence (fst (scan ic ins esc
               (match rest with String _ r => r | _ => rest end))) rest).
  { intros. destruct rest as [|d r]; [apply IH1|].
    constructor. apply IH. simpl. lia. }
  rewrite scan_cons.
  repeat match goal with
         | |- context [if ?b then _ else _] => destruct b
         | |- context [match ?o with Some _ => _ | None => _ end] => destruct o
         end;
    unfold emit; simpl fst;
    first [ apply subsequence_keep, IH1
          | apply subsequence_skip, IH1
          | apply subsequence_skip, IH2
          | apply subsequence_empty ].
Qed.

(** X2. The Scanner only deletes: the cleaned content of a line is the line
    with some characters left out, in the same order, whatever the state it
    starts from; in particular it is never longer than the line. *)
Theorem process_line_only_deletes (line : string) (st : ScanState) :
  subsequence (fst (process_line line st)) line /\
  String.length (fst (process_line line st)) <= String.length line.
Proof.
  assert (H : subsequence (fst (process_line line st)) line).
  { unfold process_line. destruct (rstrip_prefix line) as [w Hw].
    rewrite Hw at 2. apply subsequence_app_r, scan_subsequence. }
  split; [exact H | now apply subsequence_length].
Qed.

Lemma all_chars_app (p : ascii -> bool) (a b : string) :
  all_chars p (a +:+ b) = all_chars p a && all_chars p b.
Proof.
  induction a as [|c a IH]; simpl; [reflexivity|].
  now rewrite IH, andb_assoc.
Qed.

Lemma ordinary_spec (c : ascii) :
  ordinary c = true ->
  is_quote c = false /\ Ascii.eqb c "-" = false /\ Ascii.eqb c "/" = false.
Proof.
  unfold ordinary. intros H.
  apply andb_true_iff in H as [H H3]. apply andb_true_iff in H as [H1 H2].
  apply negb_true_iff in H1, H2, H3. auto.
Qed.

Lemma starts2_other_head (c d x : ascii) (s : string) :
  Ascii.eqb x c = false -> starts2 c d (String x s) = false.
Proof. intros H. unfold starts2. rewrite H. now destruct s. Qed.

Lemma scan_ordinary_then (pre rest : string) :
  all_chars ordinary pre = true ->
  scan false None false (pre +:+ "--" +:+ rest) = (pre, initial_scan).
Proof.
  intros H. induction pre as [|c pre IH]; [reflexivity|].
  simpl in H. apply andb_true_iff in H as [Hc H].
  destruct (ordinary_spec c Hc) as (Hq & Hd & Hs).
  change (String c pre +:+ "--" +:+ rest) with (String c (pre +:+ "--" +:+ rest)).
  rewrite scan_cons, !starts2_other_head, Hq, IH by assumption. reflexivity.
Qed.

Lemma scan_ordinary (s : string) :
  all_chars ordinary s = true -> scan false None false s = (s, initial_scan).
Proof.
  induction s as [|c s IH]; [reflexivity|]. simpl all_chars. intros H.
  apply andb_true_iff in H as [Hc H].
  destruct (ordinary_spec c Hc) as (Hq & Hd & Hs).
  rewrite scan_cons, !starts2_other_head, Hq, IH by assumption. reflexivity.
Qed.

(** X3. A line comment ends the line: when the text before the first [--]
    holds no quote, dash or slash, the cleaned content is that text and
    nothing of what follows, be it a quote or a comment marker, reaches the
    content or the state. *)
Theorem line_comment_truncates (pre rest : string) :
  all_chars ordinary pre = true ->
  process_line (pre +:+ "--" +:+ rest) initial_scan = (pre, initial_scan).
Proof.
  intros H. unfold process_line, initial_scan.
  cbn [in_multiline_comment in_string escape_next].
  replace (pre +:+ "--" +:+ rest) with ((pre +:+ "-") +:+ String "-" rest)
    by (rewrite append_assoc; reflexivity).
  rewrite rstrip_app_cons by reflexivity.
  replace ((pre +:+ "-") +:+ String "-" (Py.rstrip rest))
    with (pre +:+ "--" +:+ Py.rstrip rest) by (rewrite append_assoc; reflexivity).
  now apply scan_ordinary_then.
Qed.

Lemma line_comment_truncates_witness :
  process_line ("SELECT 5 " +:+ "--" +:+ " it's /* not closed" +:+ nl) initial_scan
  = ("SELECT 5 ", initial_scan).
Proof.
  exact (line_comment_truncates "SELECT 5 " (" it's /* not closed" +:+ nl) eq_refl).
Defined.

Lemma scan_inside_string (q : ascii) (body rest : string) (ic : bool) :
  all_chars (inside q) body = true ->
  scan ic (Some q) false (body +:+ rest) = prepend body (scan ic (Some q) false rest).
Proof.
  intros H. induction body as [|c body IH].
  - unfold prepend. simpl. now destruct (scan ic (Some q) false rest).
  - simpl in H. apply andb_true_iff in H as [Hc H].
    unfold inside in Hc. apply andb_true_iff in Hc as [H1 H2].
    apply negb_true_iff in H1, H2.
    change (String c body +:+ rest) with (String c (body +:+ rest)).
    rewrite scan_cons, H1, H2, IH by assumption. reflexivity.
Qed.

Lemma is_quote_spec (q : ascii) :
  is_quote q = true ->
  Ascii.eqb q "\" = false /\ Ascii.eqb q "-" = false /\ Ascii.eqb q "/" = false.
Proof.
  unfold is_quote. intros H.
  apply orb_true_iff in H as [H|H]; [apply orb_true_iff in H as [H|H]|];
    apply Ascii.eqb_eq in H; subst; repeat split.
Qed.

(** X4. A complete quoted literal is copied to the cleaned content as it
    is, quotes included, whatever it holds: comment markers, terminators and
    the other quote characters inside it have no effect, and the scan goes
    on after it outside any string. *)
Theorem quoted_literal_copied (q : ascii) (body rest : string) :
  is_quote q = true ->
  all_chars (inside q) body = true ->
  scan false None false (String q (body +:+ String q rest))
  = prepend (String q (body +:+ String q EmptyString)) (scan false None false rest).
Proof.
  intros Hq Hb. destruct (is_quote_spec q Hq) as (Hbs & Hd & Hs).
  rewrite scan_cons, !starts2_other_head, Hq by assumption.
  rewrite scan_inside_string by assumption.
  rewrite scan_cons, Hbs, Ascii.eqb_refl.
  unfold prepend, emit. simpl. now rewrite append_assoc.
Qed.

Lemma quoted_literal_copied_witness :
  scan false None false ("'" +:+ "a -- b; /* c */ `d`" +:+ "'" +:+ ", 2);")
  = ("'a -- b; /* c */ `d`', 2);", initial_scan).
Proof.
  exact (quoted_literal_copied "'" "a -- b; /* c */ `d`" ", 2);" eq_refl eq_refl).
Defined.

(** ** The Restorer, for any engine *)

Section RestoreOrder.
Context {Engine : Type}.
Variable execute_sql : Engine -> string -> Engine * bool.

(** What the guarded execution of a sequence does to the record of a run. *)
Lemma execute_each_trace (skip_errors : bool) (stmts : list string) (r : Run Engine) :
  exists done rest,
    stmts = done ++ rest /\
    calls (snd (execute_each execute_sql skip_errors stmts r)) = calls r ++ done /\
    (fst (execute_each execute_sql skip_errors stmts r) = Completed -> rest = []) /\
    (skip_errors = true ->
       fst (execute_each execute_sql skip_errors stmts r) = Completed) /\
    (skip_errors = false ->
       statements_executed (snd (execute_each execute_sql skip_errors stmts r))
       + (match fst (execute_each execute_sql skip_errors stmts r) with
          | Completed => 0 | Raised => 1 end)
       = statements_executed r + length done).
Proof.
  revert r. induction stmts as [|s stmts IH]; intros r.
  - exists [], []. simpl. rewrite app_nil_r. repeat split; auto.
  - simpl. unfold execute_guarded.
    destruct (execute_sql (engine r) s) as [e ok]. destruct ok.
    + destruct (IH (mkRun e (S (statements_executed r)) (calls r ++ [s])))
        as (done & rest & -> & Hc & Hr & Hs & Hn).
      exists (s :: done), rest. simpl in *. rewrite Hc, <- app_assoc.
      repeat split; auto. intros E. rewrite (Hn E). lia.
    + destruct skip_errors.
      * destruct (IH (mkRun e (statements_executed r) (calls r ++ [s])))
          as (done & rest & -> & Hc & Hr & Hs & Hn).
        exists (s :: done), rest. simpl in *. rewrite Hc, <- app_assoc.
        repeat split; auto. discriminate.
      * exists [s], stmts. simpl. repeat split; auto; try discriminate; try lia.
Qed.

Lemma final_statement_short (a : Assembler) :
  final_statement a = [] \/ exists s, final_statement a = [s].
Proof. unfold final_statement. destruct (executable _); eauto. Qed.

Lemma execute_unguarded_calls (s : string) (r : Run Engine) :
  calls (snd (execute_unguarded execute_sql s r)) = calls r ++ [s].
Proof.
  unfold execute_unguarded. destruct (execute_sql (engine r) s) as [e [|]]; reflexivity.
Qed.
End RestoreOrder.




Lemma loop_statements_executable (lines : list string) (a : Assembler) :
  Forall (fun s => s <> EmptyString /\ Py.startswith s "--" = false)
         (fst (loop_statements lines a)).
Proof.
  revert a. induction lines as [|line lines IH]; intros a; simpl; [constructor|].
  destruct (assemble_line a line) as [stmt a1] eqn:E.
  specialize (IH a1). destruct (loop_statements lines a1) as [stmts a2].
  destruct stmt as [s|]; simpl in *; [|exact IH].
  constructor; [|exact IH].
  unfold assemble_line in E.
  destruct (Py.contains ";" _ && _); [|discriminate].
  destruct (executable _) eqn:X; [|discriminate].
  injection E as <- _. unfold executable in X.
  apply andb_true_iff in X as [X1 X2]. apply negb_true_iff in X2.
  split; [|exact X2]. intros E'. rewrite E' in X1. discriminate.
Qed.

(** X8. No blank statement and no statement that starts with [--] is ever
    handed to the engine, whatever the dump, the engine and the error
    policy. *)
Theorem restore_executes_no_blank_statement {Engine : Type}
    (execute_sql : Engine -> string -> Engine * bool) (skip_errors : bool)
    (lines : list string) (e : Engine) (s : string) :
  In s (calls (snd (restore_to_db execute_sql skip_errors lines e))) ->
  s <> EmptyString /\ Py.startswith s "--" = false.
Proof.
  intros Hin.
  assert (Hall : Forall (fun s => s <> EmptyString /\ Py.startswith s "--" = false)
                   (statements_of lines)).
  { rewrite statements_of_loop. apply Forall_app. split.
    - apply loop_statements_executable.
    - unfold final_statement. destruct (executable _) eqn:X; [|constructor].
      constructor; [|constructor]. unfold executable in X.
      apply andb_true_iff in X as [X1 X2]. apply negb_true_iff in X2.
      split; [|exact X2]. intros E'. rewrite E' in X1. discriminate. }
  assert (Hpre : exists rest, statements_of lines
            = calls (snd (restore_to_db execute_sql skip_errors lines e)) ++ rest).
  { rewrite statements_of_loop, restore_to_db_statements.
    destruct (execute_each_trace execute_sql skip_errors
                (fst (loop_statements lines initial_assembler)) (mkRun e 0 []))
      as (done & rest & Hd & Hc & Hr & _).
    destruct (execute_each execute_sql skip_errors _ (mkRun e 0 [])) as [[|] r];
      simpl in *.
    - rewrite (Hr eq_refl), app_nil_r in Hd. subst done.
      destruct (final_statement_short (snd (loop_statements lines initial_assembler)))
        as [->|[s' ->]]; exists [].
      + simpl. now rewrite Hc, !app_nil_r.
      + now rewrite execute_unguarded_calls, Hc, app_nil_r.
    - exists (rest ++ final_statement (snd (loop_statements lines initial_assembler))).
      now rewrite Hc, Hd, app_assoc. }
  destruct Hpre as [rest Hpre]. rewrite Hpre in Hall.
  apply Forall_app in Hall as [Hall _].
  rewrite Forall_forall in Hall. apply Hall. now apply list_elem_of_In.
Qed.

Lemma restore_executes_no_blank_statement_witness :
  "SELECT 1;" <> EmptyString /\ Py.startswith "SELECT 1;" "--" = false.
Proof.
  apply (restore_executes_no_blank_statement accept_all false
           [ nl; "/* setup */" +:+ nl; "SELECT 1;" +:+ nl ] tt "SELECT 1;").
  simpl. left. reflexivity.
Defined.

Lemma subsequence_contains_char (c : ascii) (a b : string) :
  subsequence a b ->
  Py.contains (String c "") a = true -> Py.contains (String c "") b = true.
Proof.
  induction 1 as [|x a b _ IH|x a b _ IH]; intros H.
  - exact H.
  - rewrite contains1_cons, IH by assumption. apply orb_true_r.
  - rewrite contains1_cons in *. apply orb_true_iff in H as [H|H].
    + now rewrite H.
    + rewrite IH by assumption. apply orb_true_r.
Qed.

Lemma scan_subsequence_line (line : string) (st : ScanState) :
  subsequence (fst (process_line line st)) line.
Proof.
  unfold process_line. destruct (rstrip_prefix line) as [w Hw].
  rewrite Hw at 2. apply subsequence_app_r, scan_subsequence.
Qed.

Lemma loop_statements_count (lines : list string) (a : Assembler) :
  length (fst (loop_statements lines a))
  <= length (List.filter (Py.contains ";") lines).
Proof.
  revert a. induction lines as [|line lines IH]; intros a; simpl; [lia|].
  destruct (assemble_line a line) as [stmt a1] eqn:E.
  specialize (IH a1). destruct (loop_statements lines a1) as [stmts a2].
  simpl in *. destruct stmt as [s|].
  - assert (Py.contains ";" line = true) as ->.
    { unfold assemble_line in E.
      destruct (Py.contains ";" (fst (process_line line (scan_state a)))) eqn:C;
        [|discriminate].
      apply (subsequence_contains_char _ _ line) in C; [exact C|].
      apply scan_subsequence_line. }
    simpl. lia.
  - destruct (Py.contains ";" line); simpl; lia.
Qed.

(** X9. A dump yields at most one statement per physical line that holds a
    [;], and one more for what is left at the end of the file: a dump
    without any [;] is executed as a single statement. *)
Theorem statements_bounded_by_terminator_lines (lines : list string) :
  length (statements_of lines) <= S (length (List.filter (Py.contains ";") lines)).
Proof.
  rewrite statements_of_loop, length_app.
  pose proof (loop_statements_count lines initial_assembler).
  destruct (final_statement_short (snd (loop_statements lines initial_assembler)))
    as [->|[s ->]]; simpl; lia.
Qed.

(** ** Batches *)

Section BatchProperties.
Context {Engine : Type}.
Variable get_cursor : Engine -> Engine * bool.
Variable cursor_execute : Engine -> string -> Engine * ending.

Lemma execute_batch_loop_app (pre post : list string) (r : Run Engine) :
  execute_batch_loop cursor_execute (pre ++ post) r =
  match execute_batch_loop cursor_execute pre r with
  | (Returns, r1) => execute_batch_loop cursor_execute post r1
  | (raised, r1) => (raised, r1)
  end.
Proof.
  revert r. induction pre as [|s pre IH]; intros r; simpl; [reflexivity|].
  destruct (cursor_execute (engine r) s) as [e [| |]]; [apply IH | reflexivity..].
Qed.

(** What the loop of a batch does to the record of a run. *)
Lemma execute_batch_loop_trace (stmts : list string) (r : Run Engine) :
  exists done rest,
    stmts = done ++ rest /\
    calls (snd (execute_batch_loop cursor_execute stmts r)) = calls r ++ done /\
    statements_executed (snd (execute_batch_loop cursor_execute stmts r))
      <= statements_executed r + length done /\
    ((forall e s, snd (cursor_execute e s) <> RaisesOther) ->
       fst (execute_batch_loop cursor_execute stmts r) <> RaisesOther) /\
    ((forall e s, snd (cursor_execute e s) = Returns) ->
       rest = [] /\ fst (execute_batch_loop cursor_execute stmts r) = Returns /\
       statements_executed (snd (execute_batch_loop cursor_execute stmts r))
         = statements_executed r + length done).
Proof.
  revert r. induction stmts as [|s stmts IH]; intros r.
  - exists [], []. simpl. rewrite app_nil_r.
    split; [reflexivity|]. split; [reflexivity|]. split; [lia|].
    split; [discriminate|]. intros _. split; [reflexivity|]. split; [reflexivity | lia].
  - simpl.
    pose proof (fun H : forall e s, snd (cursor_execute e s) <> RaisesOther =>
                  H (engine r) s) as Hno.
    pose proof (fun H : forall e s, snd (cursor_execute e s) = Returns =>
                  H (engine r) s) as Hnf.
    destruct (cursor_execute (engine r) s) as [e [| |]]; simpl in *.
    + destruct (IH (mkRun e (S (statements_executed r)) (calls r ++ [s])))
        as (done & rest & -> & Hc & Hn & Ho & Hf).
      exists (s :: done), rest. simpl in *. rewrite Hc, <- app_assoc.
      split; [reflexivity|]. split; [reflexivity|]. split; [lia|].
      split; [exact Ho|]. intros H. destruct (Hf H) as (? & ? & ?).
      split; [assumption|]. split; [assumption | lia].
    + exists [s], stmts. simpl.
      split; [reflexivity|]. split; [reflexivity|]. split; [lia|].
      split; [discriminate|]. intros H. specialize (Hnf H). discriminate.
    + exists [s], stmts. simpl.
      split; [reflexivity|]. split; [reflexivity|]. split; [lia|].
      split; [intros H; now specialize (Hno H)|].
      intros H. specialize (Hnf H). discriminate.
Qed.

(** What a batch does to the record of a run. *)
Lemma execute_batch_trace (skip_errors : bool) (stmts : list string) (r : Run Engine) :
  exists done rest,
    stmts = done ++ rest /\
    calls (snd (execute_batch get_cursor cursor_execute skip_errors stmts r))
      = calls r ++ done /\
    statements_executed (snd (execute_batch get_cursor cursor_execute skip_errors stmts r))
      <= statements_executed r + length done /\
    (skip_errors = true -> only_connector_errors get_cursor cursor_execute ->
       fst (execute_batch get_cursor cursor_execute skip_errors stmts r) = Completed) /\
    (never_fails get_cursor cursor_execute ->
       rest = [] /\
       fst (execute_batch get_cursor cursor_execute skip_errors stmts r) = Completed /\
       statements_executed
         (snd (execute_batch get_cursor cursor_execute skip_errors stmts r))
         = statements_executed r + length done).
Proof.
  unfold execute_batch.
  pose proof (fun H : forall e, snd (get_cursor e) = true => H (engine r)) as Hcur.
  destruct (get_cursor (engine r)) as [e [|]]; simpl in Hcur.
  - destruct (execute_batch_loop_trace stmts
                (mkRun e (statements_executed r) (calls r)))
      as (done & rest & Hd & Hc & Hn & Ho & Hf).
    exists done, rest. simpl in *.
    destruct (execute_batch_loop cursor_execute stmts _) as [[| |] r1]; simpl in *.
    + split; [exact Hd|]. split; [exact Hc|]. split; [exact Hn|].
      split; [reflexivity|]. intros [_ H]. destruct (Hf H) as (? & _ & ?). auto.
    + split; [exact Hd|]. split; [exact Hc|]. split; [exact Hn|].
      split; [now intros ->|]. intros [_ H]. destruct (Hf H) as (_ & ? & _).
      discriminate.
    + split; [exact Hd|]. split; [exact Hc|]. split; [exact Hn|].
      split; [intros _ [_ H]; now specialize (Ho H)|].
      intros [_ H]. destruct (Hf H) as (_ & ? & _). discriminate.
  - exists [], stmts. simpl. rewrite app_nil_r.
    split; [reflexivity|]. split; [reflexivity|]. split; [lia|].
    split; [intros _ [H _]; specialize (Hcur H); discriminate|].
    intros [H _]. specialize (Hcur H). discriminate.
Qed.

(** X10. A batch is one guarded block: when a statement of the batch fails,
    the statements after it in the batch are not attempted, whether the
    failure is skipped (an [Error] under skip-errors) or raised (an [Error]
    without skip-errors, and any other exception). *)
Theorem execute_batch_drops_rest_of_batch (skip_errors : bool)
    (pre post : list string) (s : string) (r r1 : Run Engine) (e0 e2 : Engine)
    (raised : ending) :
  get_cursor (engine r) = (e0, true) ->
  execute_batch_loop cursor_execute pre (mkRun e0 (statements_executed r) (calls r))
    = (Returns, r1) ->
  cursor_execute (engine r1) s = (e2, raised) ->
  raised <> Returns ->
  execute_batch get_cursor cursor_execute skip_errors (pre ++ s :: post) r
  = (match raised with
     | RaisesError => if skip_errors then Completed else Raised
     | _ => Raised
     end,
     mkRun e2 (statements_executed r1) (calls r1 ++ [s])).
Proof.
  intros Hcur Hpre Hs Hr. unfold execute_batch.
  rewrite Hcur, execute_batch_loop_app, Hpre. simpl. rewrite Hs.
  destruct raised; [congruence | reflexivity..].
Qed.

Variable batch_size : Z.

Lemma insert_loop_count (skip_errors : bool) (matches current_batch : list string)
    (insert_count : nat) (r : Run Engine) :
  let '(o, n, r') :=
    insert_loop get_cursor cursor_execute skip_errors batch_size
      matches current_batch insert_count r in
  (o = Completed -> n = insert_count + length current_batch + length matches) /\
  (skip_errors = true -> only_connector_errors get_cursor cursor_execute ->
     o = Completed) /\
  statements_executed r'
    <= statements_executed r + length current_batch + length matches /\
  (never_fails get_cursor cursor_execute ->
     o = Completed /\
     calls r' = calls r ++ current_batch ++ matches /\
     statements_executed r'
       = statements_executed r + length current_batch + length matches).
Proof.
  revert current_batch insert_count r.
  induction matches as [|m matches IH]; intros batch n r; simpl.
  - destruct batch as [|b batch].
    + simpl. rewrite !app_nil_r. repeat split; auto; lia.
    + destruct (execute_batch_trace skip_errors (b :: batch) r)
        as (done & rest & Hd & Hc & Hn & Hs & Hf).
      assert (Hlen : length done <= length (b :: batch))
        by (rewrite Hd, length_app; lia).
      destruct (execute_batch get_cursor cursor_execute skip_errors (b :: batch) r)
        as [[|] r1]; simpl in *; rewrite ?app_nil_r.
      * split; [intros _; lia|]. split; [reflexivity|]. split; [lia|].
        intros H. destruct (Hf H) as (-> & _ & ->). rewrite app_nil_r in Hd.
        subst done. split; [reflexivity|]. split; [exact Hc | simpl; lia].
      * split; [discriminate|]. split; [exact Hs|]. split; [lia|].
        intros H. destruct (Hf H) as (_ & ? & _). discriminate.
  - destruct (batch_size <=? Z.of_nat (length (batch ++ [m])))%Z.
    + destruct (execute_batch_trace skip_errors (batch ++ [m]) r)
        as (done & rest & Hd & Hc & Hn & Hs & Hf).
      assert (Hlen : length done <= length batch + 1).
      { apply (f_equal (@length _)) in Hd. rewrite !length_app in Hd. simpl in Hd. lia. }
      destruct (execute_batch get_cursor cursor_execute skip_errors (batch ++ [m]) r)
        as [[|] r1]; simpl in *.
      * specialize (IH [] (n + length (batch ++ [m])) r1).
        destruct (insert_loop get_cursor cursor_execute skip_errors batch_size matches []
                    (n + length (batch ++ [m])) r1) as [[o n'] r'].
        destruct IH as (I1 & I2 & I3 & I4). rewrite length_app in I1. simpl in *.
        split; [intros E; rewrite (I1 E); lia|]. split; [exact I2|].
        split; [lia|].
        intros H. destruct (I4 H) as (? & -> & ->).
        destruct (Hf H) as (-> & _ & ->). rewrite app_nil_r in Hd. subst done.
        split; [assumption|]. split.
        -- rewrite Hc, <- !app_assoc. reflexivity.
        -- rewrite length_app. simpl. lia.
      * split; [discriminate|]. split; [exact Hs|]. split; [lia|].
        intros H. destruct (Hf H) as (_ & ? & _). discriminate.
    + specialize (IH (batch ++ [m]) n r).
      destruct (insert_loop get_cursor cursor_execute skip_errors batch_size matches
                  (batch ++ [m]) n r) as [[o n'] r'].
      destruct IH as (I1 & I2 & I3 & I4). rewrite length_app in *. simpl in *.
      split; [intros E; rewrite (I1 E); lia|]. split; [exact I2|].
      split; [lia|].
      intros H. destruct (I4 H) as (? & -> & ->).
      split; [assumption|]. split; [now rewrite <- !app_assoc | lia].
Qed.
End BatchProperties.

Lemma execute_batch_drops_rest_of_batch_witness :
  execute_batch cursor_of (fail_at 1 RaisesError) true
    ([ "INSERT 1;" ] ++ "INSERT 2;" :: [ "INSERT 3;" ]) (mkRun 0 0 [])
  = (Completed, mkRun 2 1 [ "INSERT 1;"; "INSERT 2;" ]).
Proof.
  exact (execute_batch_drops_rest_of_batch cursor_of (fail_at 1 RaisesError) true
           [ "INSERT 1;" ] [ "INSERT 3;" ] "INSERT 2;"
           (mkRun 0 0 []) (mkRun 1 1 [ "INSERT 1;" ]) 0 2 RaisesError
           eq_refl eq_refl eq_refl ltac:(discriminate)).
Defined.

(** An exception other than [Error] ends the batch and the insertion, also
    with skip-errors. *)
Lemma execute_batch_other_exception :
  execute_batch cursor_of (fail_at 1 RaisesOther) true
    [ "INSERT 1;"; "INSERT 2;"; "INSERT 3;" ] (mkRun 0 0 [])
  = (Raised, mkRun 2 1 [ "INSERT 1;"; "INSERT 2;" ]).
Proof. reflexivity. Qed.

(** X11. When the insertion of a table completes, the count it returns is
    the number of INSERT statements found for the table, whatever their
    batches did: statements that failed, and statements left unattempted
    after a failure in their batch, are counted too, so the count can exceed
    the number of statements executed.  With skip-errors it does complete, as
    long as a cursor is obtained for every batch and no statement fails with
    anything but an [Error]. *)
Theorem insert_count_counts_every_match {Engine : Type}
    (get_cursor : Engine -> Engine * bool)
    (cursor_execute : Engine -> string -> Engine * ending)
    (skip_errors : bool) (batch_size : Z)
    (content table_name : string) (r : Run Engine) :
  let '(o, n, r') :=
    extract_and_execute_inserts get_cursor cursor_execute skip_errors batch_size
      content table_name r in
  (o = Completed -> n = length (insert_statements table_name content)) /\
  statements_executed r'
    <= statements_executed r + length (insert_statements table_name content) /\
  (skip_errors = true -> only_connector_errors get_cursor cursor_execute ->
   o = Completed).
Proof.
  unfold extract_and_execute_inserts.
  pose proof (insert_loop_count get_cursor cursor_execute batch_size skip_errors
                (insert_statements table_name content) [] 0 r) as H.
  destruct (insert_loop get_cursor cursor_execute skip_errors batch_size _ [] 0 r)
    as [[o n] r'].
  destruct H as (H1 & H2 & H3 & _). simpl in *.
  split; [exact H1|]. split; [lia | exact H2].
Qed.

(** X12. Batching neither drops nor reorders: on a server that never fails,
    the INSERT statements found for the table are executed all, in the order
    of the file, whatever the batch size, zero and negative sizes
    included. *)
Theorem inserts_executed_in_file_order {Engine : Type}
    (get_cursor : Engine -> Engine * bool)
    (cursor_execute : Engine -> string -> Engine * ending) (skip_errors : bool)
    (batch_size : Z) (content table_name : string) (r : Run Engine) :
  never_fails get_cursor cursor_execute ->
  let '(o, n, r') :=
    extract_and_execute_inserts get_cursor cursor_execute skip_errors batch_size
      content table_name r in
  o = Completed /\
  calls r' = calls r ++ insert_statements table_name content /\
  statements_executed r'
    = statements_executed r + length (insert_statements table_name content).
Proof.
  intros Hnf. unfold extract_and_execute_inserts.
  pose proof (insert_loop_count get_cursor cursor_execute batch_size skip_errors
                (insert_statements table_name content) [] 0 r) as H.
  destruct (insert_loop get_cursor cursor_execute skip_errors batch_size _ [] 0 r)
    as [[o n] r'].
  destruct H as (_ & _ & _ & H4). destruct (H4 Hnf) as (? & ? & ?).
  simpl in *. repeat split; auto; lia.
Qed.

Lemma inserts_executed_in_file_order_witness :
  let '(o, n, r') :=
    extract_and_execute_inserts cursor_always return_all false 2
      ("INSERT INTO t VALUES (1);" +:+ nl +:+ "INSERT INTO u VALUES (2);" +:+ nl +:+
       "insert into `t` VALUES" +:+ nl +:+ "(3);" +:+ nl) "t" (mkRun tt 0 []) in
  o = Completed /\
  calls r' = [] ++ insert_statements "t"
      ("INSERT INTO t VALUES (1);" +:+ nl +:+ "INSERT INTO u VALUES (2);" +:+ nl +:+
       "insert into `t` VALUES" +:+ nl +:+ "(3);" +:+ nl) /\
  statements_executed r' = 0 + length (insert_statements "t"
      ("INSERT INTO t VALUES (1);" +:+ nl +:+ "INSERT INTO u VALUES (2);" +:+ nl +:+
       "insert into `t` VALUES" +:+ nl +:+ "(3);" +:+ nl)).
Proof.
  apply (inserts_executed_in_file_order cursor_always return_all false 2
           ("INSERT INTO t VALUES (1);" +:+ nl +:+ "INSERT INTO u VALUES (2);" +:+ nl +:+
            "insert into `t` VALUES" +:+ nl +:+ "(3);" +:+ nl) "t" (mkRun tt 0 [])).
  split; intros; reflexivity.
Defined.

(** ** Value lists *)

Lemma parse_values_quoted_list (fields : list string) (last : string)
    (values : list string) :
  Forall (fun f => plain f = true) fields ->
  plain last = true ->
  parse_values_loop (quoted_list fields last) values EmptyString false false
  = values ++ map Py.strip fields
    ++ (if Py.truthy last then [Py.strip last] else []).
Proof.
  intros Hf Hl. revert values.
  induction Hf as [|f fields Hp Hf IH]; intros values.
  - cbn [quoted_list map].
    rewrite (parse_values_quoted_text "'" "'" last EmptyString values EmptyString)
      by (reflexivity || assumption).
    simpl. destruct (Py.truthy last); [reflexivity | now rewrite app_nil_r].
  - cbn [quoted_list map].
    change ("'," +:+ quoted_list fields last)
      with (String "'" (String "," (quoted_list fields last))).
    rewrite (parse_values_quoted_text "'" "'" f _ values EmptyString)
      by (reflexivity || assumption).
    cbn [parse_values_loop]. simpl Ascii.eqb. cbn [is_value_quote orb andb negb].
    simpl. rewrite IH, <- app_assoc. reflexivity.
Qed.

(** X13. Quoted values come back without their quotes and with their commas:
    a list of single-quoted values that hold neither quote nor backslash is
    parsed into those values, each trimmed of the white space at its ends; a
    last value that is empty is lost. *)
Theorem parse_values_quoted_round_trip (fields : list string) (last : string) :
  Forall (fun f => plain f = true) fields ->
  plain last = true ->
  parse_values (quoted_list fields last)
  = map Py.strip fields ++ (if Py.truthy last then [Py.strip last] else []).
Proof.
  intros Hf Hl. unfold parse_values.
  now rewrite parse_values_quoted_list.
Qed.

Lemma parse_values_quoted_round_trip_witness :
  parse_values "'a,b',' c ','d;e'" = ["a,b"; "c"; "d;e"] /\
  parse_values "'a,b',''" = ["a,b"].
Proof.
  split.
  - apply (parse_values_quoted_round_trip ["a,b"; " c "] "d;e");
      [repeat constructor | reflexivity].
  - apply (parse_values_quoted_round_trip ["a,b"] "");
      [repeat constructor | reflexivity].
Defined.

Lemma split_on_cons (sep : ascii) (s : string) :
  exists w ws, Py.split_on sep s = w :: ws.
Proof.
  induction s as [|c s (w & ws & IH)]; simpl; [eauto|].
  destruct (Ascii.eqb c sep); [eauto|]. rewrite IH. eauto.
Qed.

Lemma parse_values_unquoted (s : string) (values : list string) (current : string) :
  plain s = true ->
  parse_values_loop s values current false false
  = values ++ map Py.strip (drop_empty_last
      (match Py.split_on "," s with
       | w :: ws => (current +:+ w) :: ws
       | [] => [current]
       end)).
Proof.
  revert values current. induction s as [|c s IH]; intros values current H.
  - simpl. rewrite append_empty_r.
    destruct (Py.truthy current); simpl; [reflexivity | now rewrite app_nil_r].
  - simpl in H. apply andb_true_iff in H as [H H3]. apply andb_true_iff in H as [H1 H2].
    apply negb_true_iff in H1, H2.
    cbn [parse_values_loop Py.split_on]. rewrite H1, H2.
    destruct (split_on_cons "," s) as (w & ws & Hw).
    destruct (Ascii.eqb c ",") eqn:Hc; simpl andb; cbv iota.
    + rewrite IH by assumption. rewrite Hw. simpl.
      now rewrite append_empty_r, <- app_assoc.
    + rewrite IH by assumption. rewrite Hw. unfold push.
      now rewrite append_assoc.
Qed.

(** X14. Without quotes and backslashes the values are the pieces between
    the commas, each trimmed; the piece after the last comma is left out
    when it is empty, so the empty text has no value at all. *)
Theorem parse_values_splits_at_commas (s : string) :
  plain s = true ->
  parse_values s = map Py.strip (drop_empty_last (Py.split_on "," s)).
Proof.
  intros H. unfold parse_values. rewrite parse_values_unquoted by assumption.
  destruct (split_on_cons "," s) as (w & ws & ->). reflexivity.
Qed.

Lemma parse_values_splits_at_commas_witness :
  parse_values "1, NULL ,x y," = ["1"; "NULL"; "x y"] /\ parse_values "" = [].
Proof.
  split.
  - exact (parse_values_splits_at_commas "1, NULL ,x y," eq_refl).
  - exact (parse_values_splits_at_commas "" eq_refl).
Defined.

(** ** Table names *)

Lemma run_passive (ic : bool) (r : Re.regex) :
  passive r = true ->
  forall s caps k res,
    Re.run ic r s caps k = Some res -> exists s1, k s1 caps = Some res.
Proof.
  induction r; simpl; try discriminate; intros Hp s caps k res H.
  - eauto.
  - destruct s as [|d s]; [discriminate|].
    destruct (Re.same_char ic c d); [eauto | discriminate].
  - destruct s as [|d s]; [discriminate|].
    destruct (p d); [eauto | discriminate].
  - apply andb_true_iff in Hp as [H1 H2].
    apply (IHr1 H1) in H as [s1 H]. now apply (IHr2 H2) in H.
  - apply andb_true_iff in Hp as [H1 H2].
    destruct (Re.run ic r1 s caps k) eqn:E.
    + injection H as <-. now apply (IHr1 H1) in E.
    + now apply (IHr2 H2) in H.
  - destruct (Re.run ic r s caps k) eqn:E.
    + injection H as <-. now apply (IHr Hp) in E.
    + eauto.
  - destruct s as [|c [|d s]]; try discriminate; [eauto|].
    destruct (Ascii.eqb c (ascii_of_nat 10)); [eauto | discriminate].
Qed.

Lemma text_passive (t : string) : passive (Re.text t) = true.
Proof. induction t; simpl; auto. Qed.

Lemma run_seq_passive_prefix (ic : bool) (prefix tail : list Re.regex) :
  Forall (fun r => passive r = true) prefix ->
  forall s caps k res,
    Re.run ic (Re.seq (prefix ++ tail)) s caps k = Some res ->
    exists s1, Re.run ic (Re.seq tail) s1 caps k = Some res.
Proof.
  induction 1 as [|r prefix Hr _ IH]; intros s caps k res H; [eauto|].
  simpl in H. apply (run_passive ic r Hr) in H as [s1 H]. eauto.
Qed.

(** The greedy repetition of a class consumes characters of the class. *)
Lemma run_star_class (ic : bool) (p : ascii -> bool) (s : string) (caps : Re.captures)
    (k : string -> Re.captures -> option (string * Re.captures))
    (res : string * Re.captures) :
  Re.run ic (Re.Star (Re.Class p)) s caps k = Some res ->
  exists w s1, s = w +:+ s1 /\ all_chars p w = true /\ k s1 caps = Some res.
Proof.
  simpl. generalize (String.length s) at 1. intros fuel. revert s caps.
  induction fuel as [|fuel IH]; intros s caps H.
  - exists EmptyString, s. auto.
  - destruct s as [|d s].
    + exists EmptyString, EmptyString. auto.
    + destruct (p d) eqn:Hd.
      * destruct (String.length s <? String.length (String d s))%nat.
        -- match type of H with
           | match ?x with Some _ => _ | None => _ end = _ => destruct x eqn:E
           end.
           ++ injection H as <-. apply IH in E as (w & s1 & -> & Hw & Hk).
              exists (String d w), s1. simpl. rewrite Hd, Hw. auto.
           ++ exists EmptyString, (String d s). auto.
        -- exists EmptyString, (String d s). auto.
      * exists EmptyString, (String d s). auto.
Qed.

Lemma consumed_app (w s : string) : Re.consumed (w +:+ s) s = w.
Proof.
  unfold Re.consumed. rewrite length_append.
  replace (String.length w + String.length s - String.length s) with (String.length w) by lia.
  induction w as [|c w IH]; simpl.
  - now destruct s.
  - now rewrite IH.
Qed.

(** A match of one of the three patterns captures a non-empty run of word
    characters. *)
Lemma table_pattern_capture (prefix : list Re.regex) (s rest : string)
    (caps : Re.captures) :
  Forall (fun r => passive r = true) prefix ->
  Re.match_here true
    (Re.seq (prefix ++ [Re.Group 1 (Re.Plus (Re.Class Re.word)); Re.Opt (Re.Class quote2)]))
    s = Some (rest, caps) ->
  exists w, Re.group 1 caps = Some w /\ w <> EmptyString /\ all_chars Re.word w = true.
Proof.
  intros Hp H. unfold Re.match_here in H.
  apply (run_seq_passive_prefix true prefix _ Hp) in H as [s1 H].
  cbn [Re.seq fold_right] in H.
  change (Re.run true (Re.Seq (Re.Group 1 (Re.Plus (Re.Class Re.word)))
                         (Re.Seq (Re.Opt (Re.Class quote2)) Re.Empty)) s1 []
            (fun s' caps0 => Some (s', caps0)))
    with (Re.run true (Re.Class Re.word) s1 []
            (fun s' caps' =>
               Re.run true (Re.Star (Re.Class Re.word)) s' caps'
                 (fun s'' caps'' =>
                    Re.run true (Re.Seq (Re.Opt (Re.Class quote2)) Re.Empty) s''
                      ((1, Re.consumed s1 s'') :: caps'')
                      (fun s3 caps3 => Some (s3, caps3))))) in H.
  simpl Re.run at 1 in H. destruct s1 as [|d s1]; [discriminate|].
  destruct (Re.word d) eqn:Hd; [|discriminate].
  apply (run_star_class true) in H as (w & s2 & -> & Hw & H).
  assert (caps = [(1, Re.consumed (String d (w +:+ s2)) s2)]) as ->.
  { destruct s2 as [|d0 s']; [|destruct (quote2 d0)]; now injection H. }
  exists (String d w). simpl Re.group.
  change (String d (w +:+ s2)) with (String d w +:+ s2).
  rewrite consumed_app. repeat split; [discriminate|]. simpl. now rewrite Hd, Hw.
Qed.

Lemma search_match_here (ic : bool) (r : Re.regex) (s : string) (res : string * Re.captures) :
  Re.search ic r s = Some res -> exists s', Re.match_here ic r s' = Some res.
Proof.
  induction s as [|c s IH]; simpl.
  - destruct (Re.match_here ic r "") eqn:E; [|discriminate].
    intros [= <-]. eauto.
  - destruct (Re.match_here ic r (String c s)) eqn:E; [intros [= <-]; eauto | exact IH].
Qed.

(** X15. A table name found on a line is never empty and is made of word
    characters only (letters, digits and the underscore): quotes, dots and
    dashes end it. *)
Theorem extract_table_name_is_a_word (line name : string) :
  extract_table_name line = Some name ->
  name <> EmptyString /\ all_chars Re.word name = true.
Proof.
  unfold extract_table_name, patterns, first_match. intros H.
  assert (P1 : Forall (fun r => passive r = true)
                 [Re.text "CREATE TABLE "; Re.Opt (Re.text "IF NOT EXISTS ");
                  Re.Opt (Re.Class quote2)]) by (repeat constructor).
  assert (P2 : Forall (fun r => passive r = true)
                 [Re.text "INSERT INTO "; Re.Opt (Re.Class quote2)])
    by (repeat constructor).
  assert (P3 : Forall (fun r => passive r = true)
                 [Re.text "INSERT IGNORE INTO "; Re.Opt (Re.Class quote2)])
    by (repeat constructor).
  repeat match type of H with
  | match Re.search true ?p line with Some _ => _ | None => _ end = _ =>
      let E := fresh "E" in
      destruct (Re.search true p line) as [[rest caps]|] eqn:E;
        [ apply search_match_here in E as [s' E] | ]
  end; try discriminate.
  - apply (table_pattern_capture _ _ _ _ P1) in E as (w & Hg & Hw).
    rewrite Hg in H. injection H as <-. exact Hw.
  - apply (table_pattern_capture _ _ _ _ P2) in E0 as (w & Hg & Hw).
    rewrite Hg in H. injection H as <-. exact Hw.
  - apply (table_pattern_capture _ _ _ _ P3) in E1 as (w & Hg & Hw).
    rewrite Hg in H. injection H as <-. exact Hw.
Qed.

Lemma extract_table_name_is_a_word_witness :
  "my" <> EmptyString /\ all_chars Re.word "my" = true.
Proof.
  exact (extract_table_name_is_a_word "INSERT INTO `my-table` VALUES (1);" "my" eq_refl).
Defined.

(** ** The Analyzer, counter by counter *)

Lemma analyze_line_totals (st : Stats) (line : string) :
  total (analyze_line st line) = total st + bump (counted line) /\
  create_table (analyze_line st line) + insert (analyze_line st line)
    + alter (analyze_line st line) + drop (analyze_line st line)
    + other (analyze_line st line)
  = create_table st + insert st + alter st + drop st + other st + bump (counted line) /\
  line_count (analyze_line st line) = S (line_count st).
Proof.
  unfold analyze_line, process_line_for_analysis, counted.
  destruct (Py.truthy (Py.strip (Py.upper line))); simpl; [|repeat split; lia].
  destruct (Py.startswith (Py.strip (Py.upper line)) "--"); simpl; [repeat split; lia|].
  repeat match goal with |- context [if ?b then _ else _] => destruct b end;
    simpl; repeat split; lia.
Qed.

(** X16. The counters of the Analyzer add up: the total is the sum of the
    five per-kind counters and the number of lines that are neither blank nor
    a [--] comment, and the line count is the number of lines read. *)
Theorem analyze_dump_counters_add_up (lines : list string) :
  total (analyze_dump lines)
    = create_table (analyze_dump lines) + insert (analyze_dump lines)
      + alter (analyze_dump lines) + drop (analyze_dump lines)
      + other (analyze_dump lines) /\
  total (analyze_dump lines) = length (List.filter counted lines) /\
  line_count (analyze_dump lines) = length lines.
Proof.
  unfold analyze_dump.
  assert (H : forall st,
    total (foldl analyze_line st lines)
      = total st + length (List.filter counted lines) /\
    create_table (foldl analyze_line st lines) + insert (foldl analyze_line st lines)
      + alter (foldl analyze_line st lines) + drop (foldl analyze_line st lines)
      + other (foldl analyze_line st lines)
      = create_table st + insert st + alter st + drop st + other st
        + length (List.filter counted lines) /\
    line_count (foldl analyze_line st lines) = line_count st + length lines).
  { induction lines as [|line lines IH]; intros st; simpl; [lia|].
    destruct (IH (analyze_line st line)) as (H1 & H2 & H3).
    destruct (analyze_line_totals st line) as (E1 & E2 & E3).
    rewrite H1, H2, H3, E1, E2, E3.
    destruct (counted line); simpl; lia. }
  destruct (H initial_stats) as (H1 & H2 & H3). simpl in *. lia.
Qed.

Lemma count_table_lookup (name : option string) (m : gmap string nat) (t : string) :
  default 0 (count_table name m !! t)
    = default 0 (m !! t) + bump (bool_decide (name = Some t)) /\
  (is_Some (count_table name m !! t) <-> is_Some (m !! t) \/ name = Some t).
Proof.
  destruct name as [n|]; unfold count_table.
  - destruct (decide (n = t)) as [->|Hne].
    + rewrite lookup_insert_eq, bool_decide_eq_true_2 by reflexivity.
      unfold bump. simpl. split; [lia|]. split; eauto.
    + rewrite lookup_insert_ne, bool_decide_eq_false_2 by congruence.
      unfold bump. split; [lia|]. split; [auto|]. intros [H|H]; [exact H | congruence].
  - rewrite bool_decide_eq_false_2 by discriminate.
    unfold bump. split; [lia|]. split; [auto|]. intros [H|H]; [exact H | discriminate].
Qed.

(** X17. The count the Analyzer keeps for a table is the number of lines
    with CREATE TABLE or INSERT INTO on which that table's name is found;
    the table has an entry exactly when there is such a line. *)
Theorem analyze_dump_table_count (lines : list string) (t : string) :
  default 0 (tables (analyze_dump lines) !! t)
    = length (List.filter (names_table t) lines) /\
  (is_Some (tables (analyze_dump lines) !! t)
     <-> 0 < length (List.filter (names_table t) lines)).
Proof.
  unfold analyze_dump.
  assert (H : forall st,
    default 0 (tables (foldl analyze_line st lines) !! t)
      = default 0 (tables st !! t) + length (List.filter (names_table t) lines) /\
    (is_Some (tables (foldl analyze_line st lines) !! t)
       <-> is_Some (tables st !! t) \/ 0 < length (List.filter (names_table t) lines))).
  { induction lines as [|line lines IH]; intros st; simpl.
    - split; [lia|]. split; [auto|]. intros [H|H]; [exact H | lia].
    - destruct (IH (analyze_line st line)) as (H1 & H2).
      destruct (analyze_line_effect st line) as (_ & _ & E).
      rewrite H1, H2, E. unfold names_table, keyword_line.
      destruct (create_table_line line || insert_line line); simpl.
      + destruct (count_table_lookup (extract_table_name line) (tables st) t) as [C1 C2].
        rewrite C1, C2.
        destruct (bool_decide (extract_table_name line = Some t)) eqn:B; simpl.
        * apply bool_decide_eq_true in B. split; [lia|]. split; [lia|]. auto.
        * apply bool_decide_eq_false in B. split; [lia|]. tauto.
      + split; [lia | tauto]. }
  destruct (H initial_stats) as (H1 & H2). simpl in *.
  rewrite lookup_empty in *. simpl in *. split; [exact H1|].
  rewrite H2. split; [intros [[x Hx]|Hx]; [discriminate | exact Hx] | auto].
Qed.

Lemma count_table_comm (a b : option string) (m : gmap string nat) :
  count_table a (count_table b m) = count_table b (count_table a m).
Proof.
  destruct a as [a|], b as [b|]; simpl; try reflexivity.
  destruct (decide (a = b)) as [->|Hne]; [reflexivity|].
  rewrite !lookup_insert_ne by congruence. now apply insert_insert_ne.
Qed.

Lemma analyze_line_comm (st : Stats) (a b : string) :
  analyze_line (analyze_line st a) b = analyze_line (analyze_line st b) a.
Proof.
  unfold analyze_line, process_line_for_analysis.
  destruct (negb (Py.truthy (Py.strip (Py.upper a))) || Py.startswith (Py.strip (Py.upper a)) "--");
  destruct (negb (Py.truthy (Py.strip (Py.upper b))) || Py.startswith (Py.strip (Py.upper b)) "--");
  destruct (Py.contains "CREATE TABLE" (Py.strip (Py.upper a)));
  destruct (Py.contains "CREATE TABLE" (Py.strip (Py.upper b)));
  destruct (Py.contains "INSERT INTO" (Py.strip (Py.upper a)));
  destruct (Py.contains "INSERT INTO" (Py.strip (Py.upper b)));
  destruct (Py.contains "ALTER TABLE" (Py.strip (Py.upper a)));
  destruct (Py.contains "ALTER TABLE" (Py.strip (Py.upper b)));
  destruct (Py.contains "DROP TABLE" (Py.strip (Py.upper a)));
  destruct (Py.contains "DROP TABLE" (Py.strip (Py.upper b)));
  simpl; try reflexivity; f_equal; apply count_table_comm.
Qed.

Lemma foldl_permutation_comm {A B : Type} (f : B -> A -> B) (l1 l2 : list A) :
  (forall st a b, f (f st a) b = f (f st b) a) ->
  Permutation l1 l2 -> forall st, foldl f st l1 = foldl f st l2.
Proof.
  intros Hf. induction 1 as [|x l1 l2 _ IH|x y l|l1 l2 l3 _ IH1 _ IH2]; intros st; simpl.
  - reflexivity.
  - apply IH.
  - now rewrite Hf.
  - now rewrite IH1.
Qed.

(** X18. The statistics do not depend on the order of the lines: two dumps
    with the same lines in any order get the same counters and the same
    per-table map. *)
Theorem analyze_dump_order_independent (lines lines' : list string) :
  Permutation lines lines' -> analyze_dump lines = analyze_dump lines'.
Proof.
  intros H. unfold analyze_dump.
  apply foldl_permutation_comm; [|exact H].
  intros st a b. apply analyze_line_comm.
Qed.

Lemma analyze_dump_order_independent_witness :
  analyze_dump [ "INSERT INTO t VALUES (1);"; "CREATE TABLE t (a INT);" ]
  = analyze_dump [ "CREATE TABLE t (a INT);"; "INSERT INTO t VALUES (1);" ].
Proof.
  apply analyze_dump_order_independent. apply perm_swap.
Defined.

(** ** The Validator, whatever the order *)

(** X19. The Validator does not look at the order of the lines: a table
    whose CREATE TABLE comes after its INSERT INTO lines is not reported, and
    two dumps with the same lines in any order get the same issues. *)
Theorem validate_dump_order_independent (lines lines' : list string) :
  Permutation lines lines' -> validate_dump lines = validate_dump lines'.
Proof.
  intros H. unfold validate_dump, scan_tables.
  assert (Hc : tables_created (foldl validate_line (mkValidation ∅ ∅) lines)
             = tables_created (foldl validate_line (mkValidation ∅ ∅) lines')).
  { apply set_eq. intros t.
    destruct (scan_tables_from lines (mkValidation ∅ ∅) t) as [H1 _].
    destruct (scan_tables_from lines' (mkValidation ∅ ∅) t) as [H2 _].
    rewrite H1, H2. split; (intros [?|(l & Hl & ?)]; [now left | right; exists l]);
      split; auto; [now apply (Permutation_in _ H) | now apply (Permutation_in _ (Permutation_sym H))]. }
  assert (Hr : tables_referenced (foldl validate_line (mkValidation ∅ ∅) lines)
             = tables_referenced (foldl validate_line (mkValidation ∅ ∅) lines')).
  { apply set_eq. intros t.
    destruct (scan_tables_from lines (mkValidation ∅ ∅) t) as [_ H1].
    destruct (scan_tables_from lines' (mkValidation ∅ ∅) t) as [_ H2].
    rewrite H1, H2. split; (intros [?|(l & Hl & ?)]; [now left | right; exists l]);
      split; auto; [now apply (Permutation_in _ H) | now apply (Permutation_in _ (Permutation_sym H))]. }
  now rewrite Hc, Hr.
Qed.

Lemma validate_dump_order_independent_witness :
  validate_dump [ "INSERT INTO t VALUES (1);"; "CREATE TABLE t (a INT);" ]
  = validate_dump [ "CREATE TABLE t (a INT);"; "INSERT INTO t VALUES (1);" ].
Proof.
  apply validate_dump_order_independent. apply perm_swap.
Defined.

(** ** The Extractor, row by row *)

Lemma parse_columns_nonempty (cols : string) : parse_columns cols <> [].
Proof.
  unfold parse_columns. destruct (split_on_cons "," cols) as (w & ws & ->).
  discriminate.
Qed.

Lemma dom_py_dict_from (pairs : list (string * string)) (d : gmap string string) :
  dom (foldl (fun d kv => <[fst kv := snd kv]> d) d pairs)
  = dom d ∪ list_to_set (fst <$> pairs).
Proof.
  revert d. induction pairs as [|[k v] pairs IH]; intros d; simpl.
  - set_solver.
  - rewrite IH, dom_insert_L. set_solver.
Qed.

Lemma dom_py_dict_zip (cols values : list string) :
  length values = length cols ->
  dom (py_dict (zip cols values)) = list_to_set cols.
Proof.
  intros H. unfold py_dict. rewrite dom_py_dict_from, dom_empty_L.
  rewrite (fst_zip cols values) by lia. set_solver.
Qed.

Lemma extract_match_consistent (x : Extraction) (m : string * string) :
  consistent_extraction x ->
  consistent_extraction (extract_match x m) /\
  (forall cols, columns x = Some cols -> columns (extract_match x m) = Some cols).
Proof.
  intros [Hn Hc]. unfold extract_match. cbv zeta.
  destruct (columns x) as [[|c cols]|] eqn:E.
  - destruct Hc as [Hc _]. congruence.
  - cbv iota. rewrite E. destruct Hc as [_ Hrows].
    destruct (Nat.eqb_spec (length (parse_values (snd m))) (length (c :: cols))) as [L|L].
    + split; [|intros ? [= <-]; reflexivity].
      split; cbn [rows extracted_rows columns]; [rewrite length_app; simpl; lia|].
      split; [discriminate|].
      apply Forall_app. split; [exact Hrows|].
      constructor; [|constructor]. now apply dom_py_dict_zip.
    + split; [|intros ? [= <-]; exact E].
      split; [exact Hn|]. rewrite E. split; [discriminate | exact Hrows].
  - split; [|discriminate]. cbn [columns rows extracted_rows].
    rewrite Hc in Hn. simpl in Hn.
    destruct (Nat.eqb_spec (length (parse_values (snd m))) (length (parse_columns (fst m))))
      as [L|L]; split; cbn [columns rows extracted_rows app length]; try lia;
      (split; [apply parse_columns_nonempty|]).
    + constructor; [|constructor]. now apply dom_py_dict_zip.
    + constructor.
Qed.

Lemma extract_line_consistent (table_name : string) (x : Extraction) (line : string) :
  consistent_extraction x ->
  consistent_extraction (extract_line table_name x line) /\
  (forall cols, columns x = Some cols ->
     columns (extract_line table_name x line) = Some cols).
Proof.
  unfold extract_line.
  destruct (Py.contains "INSERT INTO" (Py.upper line) && Py.contains table_name line);
    [|auto].
  generalize (insert_matches table_name line). intros ms. revert x.
  induction ms as [|m ms IH]; intros x Hx; simpl; [auto|].
  destruct (extract_match_consistent x m Hx) as [H1 H2].
  destruct (IH _ H1) as [H3 H4]. split; [exact H3|].
  intros cols E. apply H4, H2, E.
Qed.

Lemma extract_lines_consistent (table_name : string) (lines : list string) (x : Extraction) :
  consistent_extraction x ->
  consistent_extraction (foldl (extract_line table_name) x lines) /\
  (forall cols, columns x = Some cols ->
     columns (foldl (extract_line table_name) x lines) = Some cols).
Proof.
  revert x. induction lines as [|line lines IH]; intros x Hx; simpl; [auto|].
  destruct (extract_line_consistent table_name x line Hx) as [H1 H2].
  destruct (IH _ H1) as [H3 H4]. split; [exact H3|].
  intros cols E. apply H4, H2, E.
Qed.

(** X20. The rows of an extraction fit its header: the number of extracted
    rows reported is the number of rows written, no row is written before
    the header, the header has at least one column, every row has exactly
    the columns of the header, and the header, taken from the first
    statement that matches, is not changed by the lines that follow. *)
Theorem extraction_rows_fit_header (lines more : list string) (table_name : string) :
  extracted_rows (extract_table_data lines table_name)
    = length (rows (extract_table_data lines table_name)) /\
  (columns (extract_table_data lines table_name) = None ->
   rows (extract_table_data lines table_name) = []) /\
  (forall cols,
     columns (extract_table_data lines table_name) = Some cols ->
     cols <> [] /\
     Forall (fun row => dom row = list_to_set cols)
            (rows (extract_table_data lines table_name)) /\
     columns (extract_table_data (lines ++ more) table_name) = Some cols).
Proof.
  unfold extract_table_data.
  destruct (extract_lines_consistent table_name lines (mkExtraction None [] 0))
    as [[Hn Hc] _]; [split; reflexivity|].
  split; [exact Hn|]. split.
  - intros E. now rewrite E in Hc.
  - intros cols E. rewrite E in Hc. destruct Hc as [H1 H2].
    split; [exact H1|]. split; [exact H2|].
    rewrite foldl_app.
    apply (extract_lines_consistent table_name more); [|exact E].
    split; [exact Hn|]. rewrite E. auto.
Qed.

(** ** The Splitter, part by part *)

Lemma format_04d_length (n : nat) : 4 <= String.length (format_04d n).
Proof.
  unfold format_04d. rewrite length_append.
  assert (H : forall k, String.length (zeros k) = k)
    by (induction k; simpl; auto).
  rewrite H. lia.
Qed.

(** X21. The names of the parts are in one-to-one correspondence with their
    sequence numbers: two parts never share a file, whatever their number,
    the number of a part can be read back off its name, and the number is
    written with at least four digits. *)
Theorem part_names_identify_parts (output_dir : string) (i j : nat) :
  (part_path output_dir i = part_path output_dir j <-> i = j) /\
  parse_decimal (format_04d i) = Some i /\
  4 <= String.length (format_04d i).
Proof.
  split; [|split].
  - split; [apply part_path_inj | now intros ->].
  - apply parse_format_04d.
  - apply format_04d_length.
Qed.

(** X22. For a number of lines per file other than 0 the split never fails,
    reads every line, and creates as many parts as the lines need, the
    number of lines divided by the (absolute) lines per file, rounded up:
    none for an empty dump; a negative number of lines per file counts as
    its absolute value. *)
Theorem split_creates_parts_needed (args : Args) (fs : gmap string string)
    (lines : list string) :
  lines_per_file args <> 0%Z ->
  exists st,
    split_lines args (mkSplit 0 0 None fs) lines = (Completed, st) /\
    Z.of_nat (file_count st)
      = parts_needed (Z.of_nat (length lines)) (Z.abs (lines_per_file args)) /\
    split_line_count st = length lines.
Proof.
  intros Hn.
  destruct (split_lines_counts args lines (mkSplit 0 0 None fs) Hn) as (st & E & K & L).
  - now left.
  - simpl. unfold parts_needed. symmetry. apply Z.div_small. lia.
  - exists st. auto.
Qed.

Lemma split_creates_parts_needed_witness :
  exists st,
    split_lines (basic_args "dump.sql" None (-2)) (mkSplit 0 0 None ∅)
      [ "a;" +:+ nl; "b;" +:+ nl; "c;" +:+ nl ] = (Completed, st) /\
    Z.of_nat (file_count st) = parts_needed 3 2 /\
    split_line_count st = 3.
Proof.
  apply (split_creates_parts_needed (basic_args "dump.sql" None (-2)) ∅
           [ "a;" +:+ nl; "b;" +:+ nl; "c;" +:+ nl ]).
  simpl. lia.
Defined.

(** ** Compressed input, on completion *)




Section RunCompletion.
Variable gunzip : string -> option string.
Variable chunk : positive.
Variable csv_text : list string -> list (gmap string string) -> string.
Variable extract_over_input : string -> string -> string.
Variable report_text : string.
Context {Engine : Type}.
Variable database_exists : Engine -> Engine * option bool.
Variable create_the_database : Engine -> Engine * bool.
Variable execute_sql : Engine -> string -> Engine * bool.

#[local] Abbreviation the_run :=
  (run gunzip chunk csv_text extract_over_input report_text
       database_exists create_the_database execute_sql).



(** X24. A run on a dump that is not compressed never deletes it, in any of
    the five modes; in the analyze and validate modes it leaves every file as
    it was, the report apart, and the whole file system when no report is
    requested. *)
Theorem run_preserves_plain_input (m : mode) (args : Args)
    (fs : gmap string string) (e : Engine) :
  Py.endswith (file args) ".gz" = false ->
  (is_Some (fs !! file args) -> is_Some ((the_run m args fs e).1.2 !! file args)) /\
  (m = Analyze \/ m = Validate ->
   (forall p, report args <> Some p -> (the_run m args fs e).1.2 !! p = fs !! p) /\
   (given (report args) = false -> (the_run m args fs e).1.2 = fs)).
Proof.
  intros Hgz. split; [now apply run_keeps_plain_input|].
  intros Hm.
  assert (Hmode : (read_only_mode gunzip args fs).2 = fs).
  { unfold read_only_mode, decompress_if_needed. rewrite Hgz.
    destruct (fs !! file args); rewrite ?cleanup_same; reflexivity. }
  assert (Hrun : (the_run m args fs e).1.2 = fs \/
                 (the_run m args fs e).1.2 = (generate_report report_text args fs).2).
  { unfold run. destruct (validate_args m args _ _); [|now left].
    destruct Hm as [-> | ->];
      destruct (read_only_mode gunzip args fs) as [o fs1];
      simpl in Hmode; subst fs1; destruct o; simpl; auto;
      destruct (generate_report report_text args fs) as [[|] fs2]; simpl; auto. }
  split.
  - intros p Hp. destruct Hrun as [-> | ->]; [reflexivity|].
    now apply generate_report_lookup.
  - intros Hno. destruct Hrun as [-> | ->]; [reflexivity|].
    unfold generate_report. now rewrite Hno.
Qed.
End RunCompletion.


Lemma run_preserves_plain_input_witness :
  (is_Some (({[ "dump.sql" := "SELECT 1;" ]} : gmap string string) !! "dump.sql") ->
   is_Some ((run (fun _ => None) 8192 (fun _ _ => "") (fun _ _ => "") "{}"
               (fun e : unit => (e, Some true)) (fun e => (e, true)) accept_all
               Analyze
               (mkArgs "dump.sql" None None None false false false None None 1
                  (Some "r.json"))
               {[ "dump.sql" := "SELECT 1;" ]} tt).1.2 !! "dump.sql")) /\
  (Analyze = Analyze \/ Analyze = Validate ->
   (forall p, Some "r.json" <> Some p ->
      (run (fun _ => None) 8192 (fun _ _ => "") (fun _ _ => "") "{}"
         (fun e : unit => (e, Some true)) (fun e => (e, true)) accept_all
         Analyze
         (mkArgs "dump.sql" None None None false false false None None 1
            (Some "r.json"))
         {[ "dump.sql" := "SELECT 1;" ]} tt).1.2 !! p
      = ({[ "dump.sql" := "SELECT 1;" ]} : gmap string string) !! p) /\
   (given (Some "r.json") = false ->
      (run (fun _ => None) 8192 (fun _ _ => "") (fun _ _ => "") "{}"
         (fun e : unit => (e, Some true)) (fun e => (e, true)) accept_all
         Analyze
         (mkArgs "dump.sql" None None None false false false None None 1
            (Some "r.json"))
         {[ "dump.sql" := "SELECT 1;" ]} tt).1.2 = {[ "dump.sql" := "SELECT 1;" ]})).
Proof.
  apply (run_preserves_plain_input (fun _ => None) 8192 (fun _ _ => "") (fun _ _ => "")
           "{}" (fun e : unit => (e, Some true)) (fun e => (e, true)) accept_all
           Analyze
           (mkArgs "dump.sql" None None None false false false None None 1
              (Some "r.json"))
           {[ "dump.sql" := "SELECT 1;" ]} tt).
  reflexivity.
Defined.

(** ** Backups *)




(** ** Statements found by pattern *)

Lemma run_passive_width (ic : bool) (r : Re.regex) :
  passive r = true ->
  forall s caps k res,
    Re.run ic r s caps k = Some res ->
    exists w s1, s = w +:+ s1 /\ String.length w <= width r /\ k s1 caps = Some res.
Proof.
  induction r; simpl; try discriminate; intros Hp s caps k res H.
  - exists EmptyString, s. auto.
  - destruct s as [|d s]; [discriminate|].
    destruct (Re.same_char ic c d); [|discriminate].
    exists (String d EmptyString), s. auto.
  - destruct s as [|d s]; [discriminate|].
    destruct (p d); [|discriminate].
    exists (String d EmptyString), s. auto.
  - apply andb_true_iff in Hp as [H1 H2].
    apply (IHr1 H1) in H as (w1 & s1 & -> & L1 & H).
    apply (IHr2 H2) in H as (w2 & s2 & -> & L2 & H).
    exists (w1 +:+ w2), s2. rewrite append_assoc, length_append.
    repeat split; [lia | exact H].
  - apply andb_true_iff in Hp as [H1 H2].
    destruct (Re.run ic r1 s caps k) eqn:E.
    + injection H as <-. apply (IHr1 H1) in E as (w & s1 & -> & L & E).
      exists w, s1. repeat split; [lia | exact E].
    + apply (IHr2 H2) in H as (w & s1 & -> & L & H).
      exists w, s1. repeat split; [lia | exact H].
  - destruct (Re.run ic r s caps k) eqn:E.
    + injection H as <-. now apply (IHr Hp) in E.
    + exists EmptyString, s. repeat split; [simpl; lia | exact H].
  - exists EmptyString, s. repeat split; [simpl; lia|].
    destruct s as [|c [|d s]]; try discriminate; [exact H|].
    destruct (Ascii.eqb c (ascii_of_nat 10)); [exact H | discriminate].
Qed.

Lemma width_text (t : string) : width (Re.text t) = String.length t.
Proof. induction t; simpl; auto. Qed.

Lemma run_seq_passive_width (ic : bool) (prefix tail : list Re.regex) :
  Forall (fun r => passive r = true) prefix ->
  forall s caps k res,
    Re.run ic (Re.seq (prefix ++ tail)) s caps k = Some res ->
    exists w s1, s = w +:+ s1 /\ String.length w <= width (Re.seq prefix) /\
                 Re.run ic (Re.seq tail) s1 caps k = Some res.
Proof.
  induction 1 as [|r prefix Hr _ IH]; intros s caps k res H.
  - exists EmptyString, s. auto.
  - simpl in H. apply (run_passive_width ic r Hr) in H as (w1 & s1 & -> & L1 & H).
    apply IH in H as (w2 & s2 & -> & L2 & H).
    exists (w1 +:+ w2), s2. rewrite append_assoc, length_append. simpl.
    repeat split; [lia | exact H].
Qed.

(** The lazy repetition stops at the first place where what follows it
    matches. *)
Lemma run_lazy_any (ic : bool) (s : string) (caps : Re.captures)
    (k : string -> Re.captures -> option (string * Re.captures))
    (res : string * Re.captures) :
  Re.run ic (Re.LazyStar (Re.Class Re.any)) s caps k = Some res ->
  exists w s1,
    s = w +:+ s1 /\ k s1 caps = Some res /\
    (forall a c b, w = a +:+ String c b -> k (String c (b +:+ s1)) caps = None).
Proof.
  simpl. generalize (String.length s) at 1. intros fuel. revert s.
  induction fuel as [|fuel IH]; intros s H.
  - destruct (k s caps) eqn:E; [|discriminate]. injection H as <-.
    exists EmptyString, s. repeat split; auto. intros [|] ? ?; discriminate.
  - destruct (k s caps) eqn:E.
    + injection H as <-. exists EmptyString, s. repeat split; auto.
      intros [|] ? ?; discriminate.
    + destruct s as [|d s]; [discriminate|].
      simpl in H.
      destruct (String.length s <? S (String.length s))%nat; [|discriminate].
      apply IH in H as (w & s1 & -> & Hk & Hmin).
      exists (String d w), s1. repeat split; auto.
      intros [|x a] c b Hsplit; simpl in Hsplit; injection Hsplit as -> ->.
      * exact E.
      * now apply (Hmin a c b).
Qed.

Lemma all_chars_of_splits (p : ascii -> bool) (w : string) :
  (forall a c b, w = a +:+ String c b -> p c = true) -> all_chars p w = true.
Proof.
  induction w as [|c w IH]; intros H; [reflexivity|]. simpl.
  rewrite (H EmptyString c w eq_refl). apply IH.
  intros a d b ->. apply (H (String c a) d b). reflexivity.
Qed.

Lemma same_char_terminator (d : ascii) :
  Re.same_char true ";" d = Ascii.eqb d ";".
Proof.
  destruct d as [[] [] [] [] [] [] [] []]; reflexivity.
Qed.

(** A match of a pattern made of a head without groups, a lazy run of any
    characters and a [;], all in group 1: the text captured is at most the
    head's width, then characters other than [;], then the [;]. *)
Lemma statement_pattern_capture (head : list Re.regex) (s rest : string)
    (caps : Re.captures) :
  Forall (fun r => passive r = true) head ->
  Re.match_here true
    (Re.Group 1 (Re.seq (head ++ [Re.LazyStar (Re.Class Re.any); Re.Lit ";"])))
    s = Some (rest, caps) ->
  exists pre body,
    Re.group 1 caps = Some (pre +:+ body +:+ ";") /\
    String.length pre <= width (Re.seq head) /\
    all_chars not_terminator body = true.
Proof.
  intros Hp H. unfold Re.match_here in H. cbn [Re.run] in H.
  apply (run_seq_passive_width true head _ Hp) in H as (pre & s1 & -> & L & H).
  cbn [Re.seq fold_right] in H.
  change (Re.run true (Re.Seq (Re.LazyStar (Re.Class Re.any)) (Re.Seq (Re.Lit ";") Re.Empty))
            s1 [] ?k) with
    (Re.run true (Re.LazyStar (Re.Class Re.any)) s1 []
       (fun s' caps' => Re.run true (Re.Seq (Re.Lit ";") Re.Empty) s' caps' k)) in H.
  apply run_lazy_any in H as (body & s2 & -> & Hk & Hmin).
  exists pre, body.
  assert (Hbody : all_chars not_terminator body = true).
  { apply all_chars_of_splits. intros a c b Hsplit.
    specialize (Hmin a c b Hsplit). cbn [Re.run] in Hmin.
    rewrite same_char_terminator in Hmin. unfold not_terminator.
    now destruct (Ascii.eqb c ";"). }
  cbn [Re.run] in Hk. destruct s2 as [|d s3]; [discriminate|].
  rewrite same_char_terminator in Hk.
  destruct (Ascii.eqb_spec d ";") as [->|]; [|discriminate].
  injection Hk as _ <-. simpl Re.group.
  replace (pre +:+ body +:+ String ";" s3) with ((pre +:+ body +:+ ";") +:+ s3)
    by (rewrite !append_assoc; reflexivity).
  rewrite consumed_app. auto.
Qed.

Lemma findall_from_match (ic : bool) (r : Re.regex) (fuel : nat) (s : string)
    (caps : Re.captures) :
  In caps (Re.findall_from fuel ic r s) ->
  exists s' rest, Re.match_here ic r s' = Some (rest, caps).
Proof.
  revert s. induction fuel as [|fuel IH]; intros s; simpl; [tauto|].
  destruct (Re.match_here ic r s) as [[s' caps']|] eqn:E.
  - destruct (String.length s' <? String.length s)%nat.
    + intros [<-|H]; [eauto | now apply IH in H].
    + intros [<-|H]; [eauto|]. destruct s; [destruct H | now apply IH in H].
  - destruct s; [intros [] | apply IH].
Qed.

(** X26. The CREATE TABLE statement found for a table stops at the first [;]
    that follows the table name, wherever that [;] is, be it inside a string
    of the statement: the text returned is a head no longer than CREATE
    TABLE, IF NOT EXISTS and the name between backticks (29 characters and
    the name), then characters none of which is a [;], then a [;], its
    last character. *)
Theorem extract_create_table_stops_at_terminator (content table_name found : string) :
  extract_create_table content table_name = Some found ->
  exists head body,
    found = head +:+ body +:+ ";" /\
    String.length head <= 29 + String.length table_name /\
    all_chars not_terminator body = true.
Proof.
  unfold extract_create_table, create_table_pattern. intros H.
  destruct (Re.search true _ content) as [[rest caps]|] eqn:E; [|discriminate].
  apply search_match_here in E as [s' E].
  apply (statement_pattern_capture
           [Re.text "CREATE TABLE "; Re.Opt (Re.text "IF NOT EXISTS ");
            Re.Opt (Re.Lit "`"); Re.text table_name; Re.Opt (Re.Lit "`")]) in E
    as (pre & body & Hg & L & Hb).
  - exists pre, body. rewrite Hg in H. injection H as <-.
    repeat split; [|exact Hb]. simpl in L. rewrite width_text in L. lia.
  - repeat constructor. apply text_passive.
Qed.

Lemma extract_create_table_stops_at_terminator_witness :
  exists head body,
    "CREATE TABLE t (a VARCHAR(9) DEFAULT 'x;" = head +:+ body +:+ ";" /\
    String.length head <= 29 + String.length "t" /\
    all_chars not_terminator body = true.
Proof.
  exact (extract_create_table_stops_at_terminator
           ("CREATE TABLE t (a VARCHAR(9) DEFAULT 'x;y');" +:+ nl) "t"
           "CREATE TABLE t (a VARCHAR(9) DEFAULT 'x;" eq_refl).
Defined.

(** X27. Each INSERT statement found for a table stops at the first [;]
    that follows the table name, be it inside a quoted value: the statement
    is a head no longer than INSERT INTO and the name between backticks (14
    characters and the name), then characters none of which is a [;], then
    a [;], its last character. *)
Theorem insert_statements_stop_at_terminator (content table_name found : string) :
  In found (insert_statements table_name content) ->
  exists head body,
    found = head +:+ body +:+ ";" /\
    String.length head <= 14 + String.length table_name /\
    all_chars not_terminator body = true.
Proof.
  unfold insert_statements, Re.findall, insert_statement_pattern. intros H.
  apply in_map_iff in H as (caps & <- & H).
  apply findall_from_match in H as (s' & rest & E).
  apply (statement_pattern_capture
           [Re.text "INSERT INTO "; Re.Opt (Re.Lit "`"); Re.text table_name;
            Re.Opt (Re.Lit "`")]) in E as (pre & body & Hg & L & Hb).
  - exists pre, body. rewrite Hg. simpl.
    repeat split; [|exact Hb]. simpl in L. rewrite width_text in L. lia.
  - repeat constructor. apply text_passive.
Qed.

Lemma insert_statements_stop_at_terminator_witness :
  exists head body,
    "INSERT INTO t VALUES ('a;" = head +:+ body +:+ ";" /\
    String.length head <= 14 + String.length "t" /\
    all_chars not_terminator body = true.
Proof.
  apply (insert_statements_stop_at_terminator
           ("INSERT INTO t VALUES ('a;b');" +:+ nl) "t" "INSERT INTO t VALUES ('a;").
  simpl. left. reflexivity.
Defined.

(** ** The command line *)

(** X28. For a restore that [main] lets through, [_validate_args] raises
    exactly when the restore is from a report and one of the host, the user
    and the database name is missing: the report that [main] asked for does
    not replace them, and whether the dump exists is not looked at. *)
Theorem restore_from_report_needs_database (args : Args)
    (path_exists is_file : bool) :
  main_accepts RestoreMode args = true ->
  (validate_args RestoreMode args path_exists is_file = Raised <->
   from_report args = true /\
   (given (db_host args) && given (db_user args) && given (db_name args) = false)).
Proof.
  unfold main_accepts, validate_args. simpl.
  destruct (from_report args); simpl;
    destruct (given (db_host args)), (given (db_user args)), (given (db_name args));
    simpl; intros H; split; try discriminate; try tauto;
    intros [? ?]; discriminate.
Qed.

Lemma restore_from_report_needs_database_witness :
  validate_args RestoreMode
    (mkArgs "dump.sql" None (Some "root") (Some "shop") false false true None None
       100000 (Some "analysis.json")) false false = Raised.
Proof.
  apply (restore_from_report_needs_database
           (mkArgs "dump.sql" None (Some "root") (Some "shop") false false true None None
              100000 (Some "analysis.json")) false false eq_refl).
  split; reflexivity.
Defined.
